(** * AI title generator: a shallow embedding of the plugin's core

    The plugin sends the text of the open note to an LLM provider and
    renames the note to the title that comes back.  This file embeds

    - the string primitives of the host language that the plugin relies on
      ([String.prototype.trim], [String.prototype.replace] with its [$]
      substitution patterns, [String.prototype.includes]),
    - the file-name sanitizer [sanitizeFileName],
    - parsed JSON values with property access, truthiness and the
      [TypeError] raised on a dereference of [null]/[undefined],
    - the three provider calls and [makeAPIRequest],
    - the command [generateTitle], as a computation over a world that
      records every observable effect (notices, console output, HTTP
      requests, rename requests),
    - the stored settings, merged over the defaults by [Object.assign],
      and the handlers of the settings tab,

    for the current revision of the plugin, and [callAnthropicAPI] of the
    earlier revision kept in [main.ts] (module [MainTs]).

    Strings are sequences of code units; the [ascii] type covers the code
    units below 256. *)

From Stdlib Require Import String Ascii List Bool ZArith NArith Lia.
From Stdlib Require Import Permutation.
From Stdlib Require QArith_base.
From Stdlib Require Import DecimalString.
Import ListNotations.

Local Open Scope string_scope.

Set Warnings "-register-all".

(* ================================================================== *)
(** ** Strings of the host language *)
(* ================================================================== *)

Module JsString.

(** Emptiness test, the truthiness of a string. *)
Definition is_empty (s : string) : bool :=
  match s with
  | EmptyString => true
  | String _ _ => false
  end.

Definition char_in (cs : list ascii) (c : ascii) : bool :=
  existsb (Ascii.eqb c) cs.

(** [In]-style membership of a code unit in a string. *)
Fixpoint occurs (c : ascii) (s : string) : Prop :=
  match s with
  | EmptyString => False
  | String d r => d = c \/ occurs c r
  end.

(** WhiteSpace and LineTerminator code units below 256: TAB, LF, VT, FF,
    CR, SP and NBSP.  (The others, U+1680, U+2000-U+200A, U+2028,
    U+2029, U+202F, U+205F, U+3000 and U+FEFF, lie outside [ascii].) *)
Definition white_space_codes : list N := [9; 10; 11; 12; 13; 32; 160]%N.

Definition is_white_space (c : ascii) : bool :=
  existsb (N.eqb (N_of_ascii c)) white_space_codes.

Fixpoint trimStart (s : string) : string :=
  match s with
  | EmptyString => EmptyString
  | String c r => if is_white_space c then trimStart r else s
  end.

Fixpoint trimEnd (s : string) : string :=
  match s with
  | EmptyString => EmptyString
  | String c r =>
      let t := trimEnd r in
      if is_empty t && is_white_space c then EmptyString else String c t
  end.

(** [s.trim()] *)
Definition trim (s : string) : string := trimEnd (trimStart s).

(** [s.includes(sub)] *)
Fixpoint includes (s sub : string) : bool :=
  prefix sub s ||
  match s with
  | EmptyString => false
  | String _ r => includes r sub
  end.

(** First index at which [pat] occurs in [s]. *)
Fixpoint indexOf (s pat : string) : option nat :=
  if prefix pat s then Some 0
  else match s with
       | EmptyString => None
       | String _ r => option_map S (indexOf r pat)
       end.

Definition dollar : ascii := "$"%char.

(** GetSubstitution of the language standard for a match without capture
    groups: [$$] is a dollar sign, [$&] the matched text, [$`] the text
    before the match and [$'] the text after it; every other use of [$]
    (including [$1] and [$<name>], there being no groups) stands for
    itself. *)
Fixpoint getSubstitution (matched before after repl : string) : string :=
  match repl with
  | EmptyString => EmptyString
  | String c r =>
      if Ascii.eqb c dollar then
        match r with
        | EmptyString => String c EmptyString
        | String d r' =>
            if Ascii.eqb d dollar then
              String dollar (getSubstitution matched before after r')
            else if Ascii.eqb d "&" then
              matched ++ getSubstitution matched before after r'
            else if Ascii.eqb d "`" then
              before ++ getSubstitution matched before after r'
            else if Ascii.eqb d "'" then
              after ++ getSubstitution matched before after r'
            else String c (getSubstitution matched before after r)
        end
      else String c (getSubstitution matched before after r)
  end.

(** [s.replace(pat, repl)] for a string pattern: the first occurrence
    only, the replacement expanded by [getSubstitution]. *)
Definition replace (s pat repl : string) : string :=
  match indexOf s pat with
  | None => s
  | Some i =>
      let before := substring 0 i s in
      let k := i + String.length pat in
      let after := substring k (String.length s - k) s in
      before ++ getSubstitution pat before after repl ++ after
  end.

(** Decimal digits of a non-negative integer. *)
Definition decimal (n : Z) : string :=
  NilZero.string_of_uint (N.to_uint (Z.to_N n)).

Definition digit_count (n : Z) : Z := Z.of_nat (String.length (decimal n)).

Fixpoint zeros (n : nat) : string :=
  match n with
  | O => EmptyString
  | S m => String "0" (zeros m)
  end.

(** The number value nearest to a non-negative integer: the integer itself
    below 2^53, else its 53 leading bits, rounded to nearest with ties to
    even. *)
Definition nearest_double (m : Z) : Z :=
  if (m <? 2 ^ 53)%Z then m
  else
    let shift := (Z.log2 m - 52)%Z in
    let q := Z.shiftr m shift in
    let r := (m - Z.shiftl q shift)%Z in
    let half := Z.shiftl 1 (shift - 1) in
    let q' := if (half <? r)%Z then (q + 1)%Z
              else if (r <? half)%Z then q
              else if Z.even q then q else (q + 1)%Z in
    Z.shiftl q' shift.

(** The digits [s] and the exponent [n] that denote the number value [x]
    with [k] digits, if some do: [s * 10^(n-k)] is the multiple of
    [10^(n-k)] just below or just above [x], the nearer one (the even one
    on a tie) among those that round to [x]. *)
Definition candidate (x k : Z) : option (Z * Z) :=
  let d := digit_count x in
  let p := (10 ^ (d - k))%Z in
  let lo := (x / p)%Z in
  let hi := (lo + 1)%Z in
  let ok_lo := (nearest_double (lo * p) =? x)%Z in
  let ok_hi := (nearest_double (hi * p) =? x)%Z in
  let dlo := (x - lo * p)%Z in
  let dhi := (hi * p - x)%Z in
  if ok_lo && (negb ok_hi || (dlo <? dhi)%Z || ((dlo =? dhi)%Z && Z.even lo))
  then Some (lo, d)
  else if ok_hi
  then (if (hi =? 10 ^ k)%Z then Some (10 ^ (k - 1), d + 1)
        else Some (hi, d))%Z
  else None.

(** The least number of digits that denote [x], from [k] on; seventeen
    always do. *)
Fixpoint shortest (fuel : nat) (x k : Z) : Z * Z * Z :=
  match fuel with
  | O => (x, digit_count x, digit_count x)
  | S f =>
      match candidate x k with
      | Some (s, n) => (s, k, n)
      | None => shortest f x (k + 1)
      end
  end.

(** Number::toString on an integral number value of 2^53 or more: the
    shortest digits that denote it, padded with zeros up to 21 digits and
    in exponent notation beyond. *)
Definition large_toString (x : Z) : string :=
  if (2 ^ 1024 <=? x)%Z then "Infinity"
  else
    let '(s, k, n) := shortest 17 x 1 in
    let ds := decimal s in
    if (n <=? 21)%Z then ds ++ zeros (Z.to_nat (n - k))
    else
      match ds with
      | EmptyString => EmptyString
      | String c rest =>
          String c (if (k =? 1)%Z then EmptyString else "." ++ rest)
            ++ "e+" ++ decimal (n - 1)
      end.

(** Rendering of an integral number ([n.toString()], [`${n}`]): all its
    digits below 2^53, where every integer is a number value; beyond, the
    rendering of the number value nearest to it. *)
Definition number_toString (z : Z) : string :=
  if (Z.abs z <? 2 ^ 53)%Z then NilZero.string_of_int (Z.to_int z)
  else
    (if (z <? 0)%Z then "-" else EmptyString)
      ++ large_toString (nearest_double (Z.abs z)).

End JsString.

Import JsString.

(* ================================================================== *)
(** ** The file-name sanitizer *)
(* ================================================================== *)

Definition backslash : ascii := ascii_of_N 92.
Definition dquote : ascii := ascii_of_N 34.

(** The character class of the first regular expression of the sanitizer:
    backslash, slash, colon, star, question mark, double quote, angle
    brackets and the vertical bar. *)
Definition invalid_chars : list ascii :=
  [backslash; "/"; ":"; "*"; "?"; dquote; "<"; ">"; "|"]%char.

Definition is_invalid (c : ascii) : bool := char_in invalid_chars c.

Definition is_dot (c : ascii) : bool := Ascii.eqb c ".".

(** First step, a global replace of that class by the empty string. *)
Fixpoint remove_invalid (s : string) : string :=
  match s with
  | EmptyString => EmptyString
  | String c r =>
      if is_invalid c then remove_invalid r else String c (remove_invalid r)
  end.

(** [.replace(/\.\./g, '.')]: the matches are found from left to right and
    do not overlap; each one is a pair of dots and becomes one dot. *)
Fixpoint replace_dotdot (s : string) : string :=
  match s with
  | EmptyString => EmptyString
  | String c r =>
      match r with
      | EmptyString => String c EmptyString
      | String d r' =>
          if is_dot c && is_dot d then String "." (replace_dotdot r')
          else String c (replace_dotdot r)
      end
  end.

Definition sanitizeFileName (fileName : string) : string :=
  trim (replace_dotdot (remove_invalid fileName)).

(** Two adjacent dots somewhere in the string. *)
Fixpoint has_dotdot (s : string) : bool :=
  match s with
  | EmptyString => false
  | String c r =>
      match r with
      | EmptyString => false
      | String d _ => (is_dot c && is_dot d) || has_dotdot r
      end
  end.

(** [path.replace(/[^/]+$/, repl)].  The regular expression matches at the
    first position from which the rest of the string is non-empty and free
    of slashes; [exec_last_segment] returns the text before the match and
    the match. *)
Definition is_slash (c : ascii) : bool := Ascii.eqb c "/".

Fixpoint no_slash (s : string) : bool :=
  match s with
  | EmptyString => true
  | String c r => negb (is_slash c) && no_slash r
  end.

Fixpoint exec_last_segment (s : string) : option (string * string) :=
  match s with
  | EmptyString => None
  | String c r =>
      if no_slash s then Some (EmptyString, s)
      else match exec_last_segment r with
           | None => None
           | Some (b, m) => Some (String c b, m)
           end
  end.

Definition replace_last_segment (path repl : string) : string :=
  match exec_last_segment path with
  | None => path
  | Some (b, m) => b ++ getSubstitution m b EmptyString repl
  end.

(* ================================================================== *)
(** ** Values, exceptions and property access *)
(* ================================================================== *)

(** A parsed JSON document, together with [undefined], which property access
    yields for an absent property.  Numbers are the integral ones: the
    program only tests a number for truthiness or renders it in a
    message. *)
Inductive value : Type :=
| Undefined
| Null
| Bool (b : bool)
| Number (z : Z)
| Str (s : string)
| Array (elems : list value)
| Object (props : list (string * value)).

(** What a [throw] carries: an [Error] built by the plugin, a [TypeError]
    raised by the runtime, or any other value thrown by the host. *)
Inductive exn : Type :=
| Error (message : string)
| TypeError (message : string)
| Thrown (v : value).

(** ToBoolean *)
Definition truthy (v : value) : bool :=
  match v with
  | Undefined | Null => false
  | Bool b => b
  | Number z => negb (z =? 0)%Z
  | Str s => negb (is_empty s)
  | Array _ | Object _ => true
  end.

Fixpoint assoc (k : string) (ps : list (string * value)) : value :=
  match ps with
  | [] => Undefined
  | (k', v) :: r => if String.eqb k k' then v else assoc k r
  end.

(** The object has an own property of that name. *)
Definition has_key (k : string) (ps : list (string * value)) : bool :=
  existsb (fun kv => String.eqb k (fst kv)) ps.

Definition cannot_read (v : string) (k : string) : exn :=
  TypeError ("Cannot read properties of " ++ v ++ " (reading '" ++ k ++ "')").

(** [v.k] for a property name [k]: a dereference of [undefined] or [null]
    throws, an object is looked up, arrays and strings have a [length], and
    everything else has no own property of that name. *)
Definition get (v : value) (k : string) : exn + value :=
  match v with
  | Undefined => inl (cannot_read "undefined" k)
  | Null => inl (cannot_read "null" k)
  | Object ps => inr (assoc k ps)
  | Array l =>
      inr (if String.eqb k "length" then Number (Z.of_nat (List.length l))
           else Undefined)
  | Str s =>
      inr (if String.eqb k "length" then Number (Z.of_nat (String.length s))
           else Undefined)
  | Bool _ | Number _ => inr Undefined
  end.

(** [v[i]] for an index [i]. *)
Definition get_index (v : value) (i : nat) : exn + value :=
  let k := number_toString (Z.of_nat i) in
  match v with
  | Undefined => inl (cannot_read "undefined" k)
  | Null => inl (cannot_read "null" k)
  | Object ps => inr (assoc k ps)
  | Array l => inr (nth i l Undefined)
  | Str s =>
      inr (match String.get i s with
           | Some c => Str (String c EmptyString)
           | None => Undefined
           end)
  | Bool _ | Number _ => inr Undefined
  end.

(** [v.trim()]: only a string has the method. *)
Definition call_trim (v : value) : exn + string :=
  match v with
  | Str s => inr (trim s)
  | Undefined => inl (cannot_read "undefined" "trim")
  | Null => inl (cannot_read "null" "trim")
  | _ => inl (TypeError "trim is not a function")
  end.

Definition cannot_convert : exn :=
  TypeError "Cannot convert object to primitive value".

(** [Array.prototype.join] with the separator [","], given the conversion
    of an element: [null] and [undefined] count as empty, and the first
    conversion that throws ends the join. *)
Definition join (f : value -> exn + string) : list value -> exn + string :=
  fix go (l : list value) : exn + string :=
    match l with
    | [] => inr EmptyString
    | x :: r =>
        match (match x with
               | Undefined | Null => inr EmptyString
               | _ => f x
               end) with
        | inl e => inl e
        | inr e1 =>
            match r with
            | [] => inr e1
            | _ :: _ =>
                match go r with
                | inl e => inl e
                | inr rest => inr (e1 ++ "," ++ rest)
                end
            end
        end
    end.

(** ToString, as used by template literals.  A parsed object holds no
    function: when it has an own property [toString], that one hides the
    inherited method, [valueOf] yields no primitive either, and the
    conversion throws; otherwise the inherited method answers.  An array
    joins the conversions of its elements. *)
Fixpoint toString (v : value) : exn + string :=
  match v with
  | Undefined => inr "undefined"
  | Null => inr "null"
  | Bool true => inr "true"
  | Bool false => inr "false"
  | Number z => inr (number_toString z)
  | Str s => inr s
  | Array l => join toString l
  | Object ps =>
      if has_key "toString" ps then inl cannot_convert
      else inr "[object Object]"
  end.

(* ================================================================== *)
(** ** The host: editor, network, vault *)
(* ================================================================== *)

(** The object handed to [JSON.stringify] as the request body. *)
Record Message := { role : string; content : string }.

Inductive RequestBody : Type :=
| ChatBody (model : string) (max_tokens : Z) (temperature : QArith_base.Q)
           (messages : list Message)
| GeminiBody (contents : list (string * list string)) (temperature : QArith_base.Q)
             (maxOutputTokens : Z).

Record RequestUrlParam := {
  url : string;
  method : string;
  headers : list (string * string);
  body : RequestBody
}.

Record RequestUrlResponse := { status : Z; json : value }.

(** How the outside answers: the network to a request, the vault to a
    rename ([None] is success). *)
Record Host := {
  host_requestUrl : RequestUrlParam -> exn + RequestUrlResponse;
  host_renameFile : string -> string -> option exn
}.

Inductive event : Type :=
| ENotice (message : string)
| EConsoleError (label : string) (e : exn)
| EGetValue
| ERequestUrl (req : RequestUrlParam)
| ERenameFile (path newPath : string).

(** The markdown view the command runs on, and the effects so far in the
    order they happened.  [view_file] is the path of [view.file], [None]
    when the view has no file; the file object is shared with the vault, so
    a successful rename shows in it. *)
Record World := {
  editor_value : string;
  view_file : option string;
  events : list event
}.

Definition log (e : event) (w : World) : World :=
  {| editor_value := editor_value w;
     view_file := view_file w;
     events := events w ++ [e] |}.

Definition set_path (p : string) (w : World) : World :=
  {| editor_value := editor_value w;
     view_file := Some p;
     events := events w |}.

(** Computations that act on the world and may throw. *)
Definition M (A : Type) : Type := World -> (exn + A) * World.

Definition ret {A} (a : A) : M A := fun w => (inr a, w).

Definition throw {A} (e : exn) : M A := fun w => (inl e, w).

Definition bind {A B} (c : M A) (k : A -> M B) : M B :=
  fun w =>
    match c w with
    | (inl e, w') => (inl e, w')
    | (inr a, w') => k a w'
    end.

Definition try_catch {A} (c : M A) (handler : exn -> M A) : M A :=
  fun w =>
    match c w with
    | (inl e, w') => handler e w'
    | (inr a, w') => (inr a, w')
    end.

(** A pure step that may throw. *)
Definition lift {A} (r : exn + A) : M A := fun w => (r, w).

Declare Scope js_scope.
Delimit Scope js_scope with js.
Notation "x <- c ;; k" := (bind c (fun x => k))
  (at level 61, c at next level, right associativity) : js_scope.
Notation "c ;; k" := (bind c (fun _ => k))
  (at level 61, right associativity) : js_scope.
Local Open Scope js_scope.

Definition Notice (message : string) : M unit :=
  fun w => (inr tt, log (ENotice message) w).

Definition console_error (label : string) (e : exn) : M unit :=
  fun w => (inr tt, log (EConsoleError label e) w).

Definition getValue : M string :=
  fun w => (inr (editor_value w), log EGetValue w).

Definition getFile : M (option string) :=
  fun w => (inr (view_file w), w).

(* ================================================================== *)
(** ** Settings *)
(* ================================================================== *)

(** [enum ProviderType]: a string enum; the stored setting is a string. *)
Definition ANTHROPIC : string := "anthropic".
Definition OPENAI : string := "openai".
Definition GEMINI : string := "gemini".

Record AITitlePluginSettings := {
  provider : string;
  anthropicApiKey : string;
  openaiApiKey : string;
  geminiApiKey : string;
  maxTitleLength : Z;
  anthropicModel : string;
  openaiModel : string;
  geminiModel : string;
  customPrompt : string
}.

Definition nl : string := String (ascii_of_N 10) EmptyString.

Definition DEFAULT_SETTINGS : AITitlePluginSettings := {|
  provider := ANTHROPIC;
  anthropicApiKey := EmptyString;
  openaiApiKey := EmptyString;
  geminiApiKey := EmptyString;
  maxTitleLength := 110;
  anthropicModel := "claude-3-7-sonnet-latest";
  openaiModel := "gpt-4o";
  geminiModel := "gemini-1.5-pro";
  customPrompt :=
    "You create concise summaries. Your summaries must:" ++ nl ++
    "- Be exactly one sentence" ++ nl ++
    "- Never exceed {maxTitleLength} characters" ++ nl ++
    "- Avoid names, emojis, links, and colons" ++ nl ++
    "- Focus on behaviors and impact" ++ nl ++
    "- Return only the summary text, nothing else"
|}.

(* ================================================================== *)
(** ** Reading a response *)
(* ================================================================== *)

Inductive accessor : Type :=
| Field (k : string)
| Index (i : nat).

Definition step (a : accessor) (v : value) : exn + value :=
  match a with
  | Field k => get v k
  | Index i => get_index v i
  end.

(** [data.a.b[0]...], evaluated from left to right. *)
Fixpoint access (v : value) (p : list accessor) : exn + value :=
  match p with
  | [] => inr v
  | a :: r =>
      match step a v with
      | inl e => inl e
      | inr v' => access v' r
      end
  end.

(** [!data.p1 || !data.p2 || ...]: the operands are evaluated in order up
    to the first falsy path. *)
Fixpoint any_falsy (data : value) (paths : list (list accessor))
  : exn + bool :=
  match paths with
  | [] => inr false
  | p :: r =>
      match access data p with
      | inl e => inl e
      | inr v => if truthy v then any_falsy data r else inr true
      end
  end.

Definition anthropic_path : list accessor :=
  [Field "content"; Index 0; Field "text"].

Definition openai_path : list accessor :=
  [Field "choices"; Index 0; Field "message"; Field "content"].

Definition gemini_path : list accessor :=
  [Field "candidates"; Index 0; Field "content"; Field "parts"; Index 0;
   Field "text"].

(** The non-empty prefixes of a path, shortest first: the operands of the
    guard that precedes each extraction. *)
Fixpoint prefixes (p : list accessor) : list (list accessor) :=
  match p with
  | [] => []
  | a :: r => [a] :: map (cons a) (prefixes r)
  end.

(* ================================================================== *)
(** ** The plugin (current revision) *)
(* ================================================================== *)

Section Plugin.

Variable app : Host.
Variable settings : AITitlePluginSettings.

Definition requestUrl (req : RequestUrlParam) : M RequestUrlResponse :=
  fun w => (host_requestUrl app req, log (ERequestUrl req) w).

(** [app.fileManager.renameFile(file, newPath)]: on success the file
    carries its new path. *)
Definition renameFile (path newPath : string) : M unit :=
  fun w =>
    let w' := log (ERenameFile path newPath) w in
    match host_renameFile app path newPath with
    | Some e => (inl e, w')
    | None => (inr tt, set_path newPath w')
    end.

Definition getApiKey : string :=
  if String.eqb (provider settings) ANTHROPIC then anthropicApiKey settings
  else if String.eqb (provider settings) OPENAI then openaiApiKey settings
  else if String.eqb (provider settings) GEMINI then geminiApiKey settings
  else EmptyString.

Definition getProviderName : string :=
  if String.eqb (provider settings) ANTHROPIC then "Anthropic"
  else if String.eqb (provider settings) OPENAI then "OpenAI"
  else if String.eqb (provider settings) GEMINI then "Google Gemini"
  else "AI Provider".

(** The text appended to the error message for the error envelope of a
    response: [error] as a string, or [error.message]. *)
Definition error_suffix (errorData : value) : exn + string :=
  if truthy errorData then
    match get errorData "error" with
    | inl e => inl e
    | inr err =>
        if truthy err then
          match err with
          | Str s => inr (": " ++ s)
          | _ =>
              match get err "message" with
              | inl e => inl e
              | inr m =>
                  if truthy m then
                    match toString m with
                    | inl e => inl e
                    | inr t => inr (": " ++ t)
                    end
                  else inr EmptyString
              end
          end
        else inr EmptyString
    end
  else inr EmptyString.

Definition makeAPIRequest (url : string) (headers : list (string * string))
    (body : RequestBody) : M RequestUrlResponse :=
  response <- requestUrl {| url := url; method := "POST";
                            headers := headers; body := body |} ;;
  if negb (status response =? 200)%Z then
    let errorData := json response in
    let errorMessage :=
      "API request failed with status " ++ number_toString (status response) in
    suffix <- lift (error_suffix errorData) ;;
    throw (Error (errorMessage ++ suffix))
  else ret response.

Definition prompt : string :=
  replace (customPrompt settings) "{maxTitleLength}"
          (number_toString (maxTitleLength settings)).

(** The guard and the extraction shared by the three provider calls. *)
Definition parse_response (name : string) (p : list accessor)
    (data : value) : M string :=
  missing <- lift (any_falsy data (prefixes p)) ;;
  if missing then
    throw (Error ("Unexpected response format from " ++ name ++ " API"))
  else
    t <- lift (access data p) ;;
    lift (call_trim t).

Definition temperature_0_7 : QArith_base.Q := QArith_base.Qmake 7 10.

Definition callAnthropicAPI (text : string) : M string :=
  try_catch
    (response <- makeAPIRequest
         "https://api.anthropic.com/v1/messages"
         [("Content-Type", "application/json");
          ("x-api-key", anthropicApiKey settings);
          ("anthropic-version", "2023-06-01")]
         (ChatBody (anthropicModel settings) 100 temperature_0_7
            [{| role := "user"; content := prompt |};
             {| role := "user"; content := text |}]) ;;
     parse_response "Anthropic" anthropic_path (json response))
    (fun error =>
       console_error "Error calling Anthropic API:" error ;; throw error).

Definition callOpenAIAPI (text : string) : M string :=
  try_catch
    (response <- makeAPIRequest
         "https://api.openai.com/v1/chat/completions"
         [("Content-Type", "application/json");
          ("Authorization", "Bearer " ++ openaiApiKey settings)]
         (ChatBody (openaiModel settings) 100 temperature_0_7
            [{| role := "system"; content := prompt |};
             {| role := "user"; content := text |}]) ;;
     parse_response "OpenAI" openai_path (json response))
    (fun error =>
       console_error "Error calling OpenAI API:" error ;; throw error).

Definition callGeminiAPI (text : string) : M string :=
  try_catch
    (response <- makeAPIRequest
         ("https://generativelanguage.googleapis.com/v1/models/" ++
          geminiModel settings ++ ":generateContent?key=" ++
          geminiApiKey settings)
         [("Content-Type", "application/json")]
         (GeminiBody
            [("user",
              [prompt ++ nl ++ nl ++ "Here is the content to summarize:" ++
               nl ++ text])]
            temperature_0_7 100) ;;
     parse_response "Gemini" gemini_path (json response))
    (fun error =>
       console_error "Error calling Gemini API:" error ;; throw error).

(** The [switch] over the configured provider. *)
Definition callProvider (text : string) : M string :=
  if String.eqb (provider settings) ANTHROPIC then callAnthropicAPI text
  else if String.eqb (provider settings) OPENAI then callOpenAIAPI text
  else if String.eqb (provider settings) GEMINI then callGeminiAPI text
  else throw (Error "Invalid provider selected").

Definition error_message (error : exn) : string :=
  match error with
  | Error m | TypeError m => m
  | Thrown _ => "Unknown error"
  end.

Definition generateTitle : M unit :=
  let apiKey := getApiKey in
  if is_empty apiKey then
    Notice ("Please set your " ++ getProviderName ++
            " API key in the settings")
  else
    text <- getValue ;;
    file <- getFile ;;
    match file with
    | None => Notice "No file is currently open"
    | Some path =>
        Notice "Generating title..." ;;
        try_catch
          (title <- callProvider text ;;
           if negb (is_empty title) then
             let sanitizedTitle := sanitizeFileName title in
             let newPath :=
               replace_last_segment path (sanitizedTitle ++ ".md") in
             renameFile path newPath ;;
             Notice "Title updated successfully"
           else ret tt)
          (fun error =>
             console_error "Error generating title:" error ;;
             Notice ("Failed to generate title: " ++ error_message error))
    end.

End Plugin.

(* ================================================================== *)
(** ** The earlier revision kept in main.ts *)
(* ================================================================== *)

Module MainTs.

Section Plugin.

Variable app : Host.
Variable settings : AITitlePluginSettings.

Definition system_prompt : string :=
  "You create concise summaries of performance feedback. Your summaries must:"
    ++ nl ++
  "- Be exactly one sentence" ++ nl ++
  "- Never exceed " ++ number_toString (maxTitleLength settings) ++
  " characters" ++ nl ++
  "- Avoid names, emojis, links, and colons" ++ nl ++
  "- Focus on behaviors and impact" ++ nl ++
  "- Return only the summary text, nothing else".

(** Here the request is made in place, a status other than 200 is
    reported by its number alone, and the title is read off the
    response without a guard. *)
Definition callAnthropicAPI (text : string) : M string :=
  try_catch
    (response <- requestUrl app
         {| url := "https://api.anthropic.com/v1/messages";
            method := "POST";
            headers := [("Content-Type", "application/json");
                        ("x-api-key", anthropicApiKey settings);
                        ("anthropic-version", "2023-06-01")];
            body := ChatBody (anthropicModel settings) 100 temperature_0_7
                      [{| role := "user"; content := system_prompt |};
                       {| role := "user"; content := text |}] |} ;;
     if negb (status response =? 200)%Z then
       throw (Error ("API request failed: " ++
                     number_toString (status response)))
     else
       let data := json response in
       t <- lift (access data anthropic_path) ;;
       lift (call_trim t))
    (fun error =>
       console_error "Error calling Anthropic API:" error ;; throw error).

Definition callOpenAIAPI (text : string) : M string :=
  try_catch
    (response <- requestUrl app
         {| url := "https://api.openai.com/v1/chat/completions";
            method := "POST";
            headers := [("Content-Type", "application/json");
                        ("Authorization",
                         "Bearer " ++ openaiApiKey settings)];
            body := ChatBody (openaiModel settings) 100 temperature_0_7
                      [{| role := "system"; content := system_prompt |};
                       {| role := "user"; content := text |}] |} ;;
     if negb (status response =? 200)%Z then
       throw (Error ("API request failed: " ++
                     number_toString (status response)))
     else
       let data := json response in
       t <- lift (access data openai_path) ;;
       lift (call_trim t))
    (fun error =>
       console_error "Error calling OpenAI API:" error ;; throw error).

Definition callGeminiAPI (text : string) : M string :=
  try_catch
    (response <- requestUrl app
         {| url := "https://generativelanguage.googleapis.com/v1/models/"
                   ++ geminiModel settings ++ ":generateContent?key=" ++
                   geminiApiKey settings;
            method := "POST";
            headers := [("Content-Type", "application/json")];
            body := GeminiBody
                      [("user",
                        [system_prompt ++ nl ++ nl ++
                         "Here is the content to summarize:" ++ nl ++
                         text])]
                      temperature_0_7 100 |} ;;
     if negb (status response =? 200)%Z then
       throw (Error ("API request failed: " ++
                     number_toString (status response)))
     else
       let data := json response in
       t <- lift (access data gemini_path) ;;
       lift (call_trim t))
    (fun error =>
       console_error "Error calling Gemini API:" error ;; throw error).

Definition callProvider (text : string) : M string :=
  if String.eqb (provider settings) ANTHROPIC then callAnthropicAPI text
  else if String.eqb (provider settings) OPENAI then callOpenAIAPI text
  else if String.eqb (provider settings) GEMINI then callGeminiAPI text
  else throw (Error "Invalid provider selected").

(** The command of this revision: the title is used as it comes, and the
    failure notice has a fixed text. *)
Definition generateTitle : M unit :=
  let apiKey := getApiKey settings in
  if is_empty apiKey then
    Notice ("Please set your " ++ getProviderName settings ++
            " API key in the settings")
  else
    text <- getValue ;;
    file <- getFile ;;
    match file with
    | None => Notice "No file is currently open"
    | Some path =>
        Notice "Generating title..." ;;
        try_catch
          (title <- callProvider text ;;
           if negb (is_empty title) then
             let newPath := replace_last_segment path (title ++ ".md") in
             renameFile app path newPath ;;
             Notice "Title updated successfully"
           else ret tt)
          (fun error =>
             console_error "Error generating title:" error ;;
             Notice "Failed to generate title. Check console for details.")
    end.

End Plugin.

End MainTs.

(* ================================================================== *)
(** ** Worlds and hosts used in examples *)
(* ================================================================== *)

Definition world0 (text : string) (file : option string) : World :=
  {| editor_value := text; view_file := file; events := [] |}.

(** A host whose network always answers with the given response and whose
    vault accepts every rename. *)
Definition answering (r : RequestUrlResponse) : Host :=
  {| host_requestUrl := fun _ => inr r;
     host_renameFile := fun _ _ => None |}.

Definition with_anthropic_key (k : string) : AITitlePluginSettings :=
  {| provider := ANTHROPIC;
     anthropicApiKey := k;
     openaiApiKey := openaiApiKey DEFAULT_SETTINGS;
     geminiApiKey := geminiApiKey DEFAULT_SETTINGS;
     maxTitleLength := maxTitleLength DEFAULT_SETTINGS;
     anthropicModel := anthropicModel DEFAULT_SETTINGS;
     openaiModel := openaiModel DEFAULT_SETTINGS;
     geminiModel := geminiModel DEFAULT_SETTINGS;
     customPrompt := customPrompt DEFAULT_SETTINGS |}.

(** The response [{content: [{text: s}]}] with status 200. *)
Definition anthropic_ok (s : string) : RequestUrlResponse :=
  {| status := 200;
     json := Object [("content", Array [Object [("text", Str s)]])] |}.

Definition renames (evs : list event) : list (string * string) :=
  flat_map (fun e => match e with
                     | ERenameFile p q => [(p, q)]
                     | _ => []
                     end) evs.

Definition requests (evs : list event) : list RequestUrlParam :=
  flat_map (fun e => match e with
                     | ERequestUrl r => [r]
                     | _ => []
                     end) evs.

Definition reads (evs : list event) : nat :=
  List.length (filter (fun e => match e with
                                | EGetValue => true
                                | _ => false
                                end) evs).

(* ================================================================== *)
(** ** Vocabulary of the statements *)
(* ================================================================== *)

(** Every character of the string satisfies the test. *)
Fixpoint all_chars (p : ascii -> bool) (s : string) : bool :=
  match s with
  | EmptyString => true
  | String c r => p c && all_chars p r
  end.

Definition starts_clean (s : string) : bool :=
  match s with
  | EmptyString => true
  | String c _ => negb (is_white_space c)
  end.

Definition is_valid (c : ascii) : bool := negb (is_invalid c).

(** A directory prefix: empty, or ending in a slash. *)
Fixpoint is_dir_prefix (d : string) : bool :=
  match d with
  | EmptyString => true
  | String c r =>
      match r with
      | EmptyString => is_slash c
      | String _ _ => is_dir_prefix r
      end
  end.

Definition is_file_name (n : string) : bool :=
  negb (is_empty n) && no_slash n.

Definition no_dollar (s : string) : bool :=
  all_chars (fun c => negb (Ascii.eqb c dollar)) s.

(** [quiet w w']: from [w] to [w'] the view is the same and the effects
    added contain no rename request. *)
Definition quiet (w w' : World) : Prop :=
  editor_value w' = editor_value w /\
  view_file w' = view_file w /\
  exists evs, events w' = (events w ++ evs)%list /\ renames evs = [].

Definition preserves {A} (c : M A) : Prop := forall w, quiet w (snd (c w)).

(** The world in which the provider is called: the text has been read and
    the progress notice shown. *)
Definition started (w : World) : World :=
  log (ENotice "Generating title...") (log EGetValue w).

Definition key_notice (settings : AITitlePluginSettings) : string :=
  "Please set your " ++ getProviderName settings ++ " API key in the settings".

Definition target (path title : string) : string :=
  replace_last_segment path (sanitizeFileName title ++ ".md").

Definition failed (e : exn) (w : World) : World :=
  log (ENotice ("Failed to generate title: " ++ error_message e))
      (log (EConsoleError "Error generating title:" e) w).

(** The three ways the command fails before a rename: no API key, no open
    file, or an exception out of the provider call. *)
Definition fails_early app settings (w : World) : Prop :=
  is_empty (getApiKey settings) = true \/
  view_file w = None \/
  exists e w2,
    callProvider app settings (editor_value w) (started w) = (inl e, w2).

Definition nullish (v : value) : bool :=
  match v with
  | Undefined | Null => true
  | _ => false
  end.

Definition format_error (name : string) : exn :=
  Error ("Unexpected response format from " ++ name ++ " API").

Definition rate_limited : RequestUrlResponse :=
  {| status := 429;
     json := Object [("error", Object [("message", Str "rate limited")])] |}.

(* ================================================================== *)
(** ** Vocabulary of the further properties *)
(* ================================================================== *)

(** The last character, if any, is not white space. *)
Fixpoint ends_clean (s : string) : bool :=
  match s with
  | EmptyString => true
  | String c r =>
      match r with
      | EmptyString => negb (is_white_space c)
      | String _ _ => ends_clean r
      end
  end.

Definition trimmed (s : string) : bool := starts_clean s && ends_clean s.

(** Three adjacent dots somewhere in the string. *)
Fixpoint has_dot3 (s : string) : bool :=
  match s with
  | EmptyString => false
  | String c r =>
      match r with
      | String d (String e _) =>
          (is_dot c && is_dot d && is_dot e) || has_dot3 r
      | _ => false
      end
  end.

(** A name the sanitizer has nothing to do on. *)
Definition clean_name (s : string) : bool :=
  all_chars is_valid s && negb (has_dotdot s) && trimmed s.

(** The shape the three provider calls share: one request, then the guard
    and the extraction, any exception logged and thrown again. *)
Definition provider_call (app : Host) (url : string)
    (headers : list (string * string)) (body : RequestBody)
    (name : string) (p : list accessor) (label : string) : M string :=
  try_catch
    (response <- makeAPIRequest app url headers body ;;
     parse_response name p (json response))
    (fun error => console_error label error ;; throw error).

Definition post (url : string) (headers : list (string * string))
    (body : RequestBody) : RequestUrlParam :=
  {| url := url; method := "POST"; headers := headers; body := body |}.

(** The request each provider call sends. *)
Definition anthropic_request (settings : AITitlePluginSettings)
    (text : string) : RequestUrlParam :=
  post "https://api.anthropic.com/v1/messages"
       [("Content-Type", "application/json");
        ("x-api-key", anthropicApiKey settings);
        ("anthropic-version", "2023-06-01")]
       (ChatBody (anthropicModel settings) 100 temperature_0_7
          [{| role := "user"; content := prompt settings |};
           {| role := "user"; content := text |}]).

Definition openai_request (settings : AITitlePluginSettings)
    (text : string) : RequestUrlParam :=
  post "https://api.openai.com/v1/chat/completions"
       [("Content-Type", "application/json");
        ("Authorization", "Bearer " ++ openaiApiKey settings)]
       (ChatBody (openaiModel settings) 100 temperature_0_7
          [{| role := "system"; content := prompt settings |};
           {| role := "user"; content := text |}]).

Definition gemini_request (settings : AITitlePluginSettings)
    (text : string) : RequestUrlParam :=
  post ("https://generativelanguage.googleapis.com/v1/models/" ++
        geminiModel settings ++ ":generateContent?key=" ++
        geminiApiKey settings)
       [("Content-Type", "application/json")]
       (GeminiBody
          [("user",
            [prompt settings ++ nl ++ nl ++
             "Here is the content to summarize:" ++ nl ++ text])]
          temperature_0_7 100).

(** What a provider call adds to the effects, given its outcome. *)
Definition call_events (req : RequestUrlParam) (label : string)
    (outcome : exn + string) : list event :=
  ERequestUrl req ::
  match outcome with
  | inl e => [EConsoleError label e]
  | inr _ => []
  end.

Definition is_string (v : value) : bool :=
  match v with
  | Str _ => true
  | _ => false
  end.

(** Settings with the given provider and the same key for every provider. *)
Definition with_provider (p k : string) : AITitlePluginSettings :=
  {| provider := p;
     anthropicApiKey := k;
     openaiApiKey := k;
     geminiApiKey := k;
     maxTitleLength := maxTitleLength DEFAULT_SETTINGS;
     anthropicModel := anthropicModel DEFAULT_SETTINGS;
     openaiModel := openaiModel DEFAULT_SETTINGS;
     geminiModel := geminiModel DEFAULT_SETTINGS;
     customPrompt := customPrompt DEFAULT_SETTINGS |}.

(** The responses [{choices: [{message: {content: s}}]}] and
    [{candidates: [{content: {parts: [{text: s}]}}]}] with status 200. *)
Definition openai_ok (s : string) : RequestUrlResponse :=
  {| status := 200;
     json := Object [("choices",
                      Array [Object [("message",
                                      Object [("content", Str s)])]])] |}.

Definition gemini_ok (s : string) : RequestUrlResponse :=
  {| status := 200;
     json := Object [("candidates",
                      Array [Object [("content",
                               Object [("parts",
                                 Array [Object [("text", Str s)]])])]])] |}.

(** The provider is one of the three the plugin knows. *)
Definition known_provider (settings : AITitlePluginSettings) : bool :=
  String.eqb (provider settings) ANTHROPIC ||
  String.eqb (provider settings) OPENAI ||
  String.eqb (provider settings) GEMINI.

(** The request of the configured provider, its console label and the name
    in its format error. *)
Definition provider_request (settings : AITitlePluginSettings)
    (text : string) : RequestUrlParam :=
  if String.eqb (provider settings) ANTHROPIC
  then anthropic_request settings text
  else if String.eqb (provider settings) OPENAI
  then openai_request settings text
  else gemini_request settings text.

Definition provider_label (settings : AITitlePluginSettings) : string :=
  if String.eqb (provider settings) ANTHROPIC
  then "Error calling Anthropic API:"
  else if String.eqb (provider settings) OPENAI
  then "Error calling OpenAI API:"
  else "Error calling Gemini API:".

Definition provider_path (settings : AITitlePluginSettings)
  : list accessor :=
  if String.eqb (provider settings) ANTHROPIC then anthropic_path
  else if String.eqb (provider settings) OPENAI then openai_path
  else gemini_path.

Definition provider_api_name (settings : AITitlePluginSettings) : string :=
  if String.eqb (provider settings) ANTHROPIC then "Anthropic"
  else if String.eqb (provider settings) OPENAI then "OpenAI"
  else "Gemini".

(** The outcome of the guard and the extraction, which act on no state. *)
Definition parse_result (name : string) (p : list accessor) (data : value)
  : exn + string :=
  match any_falsy data (prefixes p) with
  | inl e => inl e
  | inr true => inl (format_error name)
  | inr false =>
      match access data p with
      | inl e => inl e
      | inr t => call_trim t
      end
  end.

(** What the command adds after the provider call, given its outcome: the
    failure report, nothing for an empty title, or the rename request
    followed by the success notice or by the report of the vault's
    refusal. *)
Definition failure_events (e : exn) : list event :=
  [EConsoleError "Error generating title:" e;
   ENotice ("Failed to generate title: " ++ error_message e)].

Definition title_events (app : Host) (path : string)
    (outcome : exn + string) : list event :=
  match outcome with
  | inl e => failure_events e
  | inr title =>
      if is_empty title then []
      else ERenameFile path (target path title) ::
           match host_renameFile app path (target path title) with
           | None => [ENotice "Title updated successfully"]
           | Some e => failure_events e
           end
  end.

(** The path of the file when the command is over. *)
Definition path_after (app : Host) (path : string)
    (outcome : exn + string) : string :=
  match outcome with
  | inl _ => path
  | inr title =>
      if is_empty title then path
      else match host_renameFile app path (target path title) with
           | None => target path title
           | Some _ => path
           end
  end.

(** A host that answers every request with the given response and refuses
    every rename with the given error. *)
Definition refusing (r : RequestUrlResponse) (e : exn) : Host :=
  {| host_requestUrl := fun _ => inr r;
     host_renameFile := fun _ _ => Some e |}.

Definition placeholder : string := "{maxTitleLength}".

(** The string without its last character. *)
Fixpoint but_last (s : string) : string :=
  match s with
  | EmptyString => EmptyString
  | String c r =>
      match r with
      | EmptyString => EmptyString
      | String _ _ => String c (but_last r)
      end
  end.

(** [begins_within a pat]: in a string that starts with [a] followed by
    [pat], an occurrence of [pat] begins within [a]. *)
Definition begins_within (a pat : string) : bool :=
  includes (a ++ but_last pat) pat.

(** A prompt template and a maximal title length as a data file can hold
    them. *)
Definition with_prompt (template : string) (n : Z) : AITitlePluginSettings :=
  {| provider := ANTHROPIC; anthropicApiKey := "k";
     openaiApiKey := EmptyString; geminiApiKey := EmptyString;
     maxTitleLength := n;
     anthropicModel := anthropicModel DEFAULT_SETTINGS;
     openaiModel := openaiModel DEFAULT_SETTINGS;
     geminiModel := geminiModel DEFAULT_SETTINGS;
     customPrompt := template |}.

Definition is_digit (c : ascii) : bool :=
  (48 <=? N_of_ascii c)%N && (N_of_ascii c <=? 57)%N.

Definition is_digit_or_minus (c : ascii) : bool :=
  is_digit c || Ascii.eqb c "-".

(* ================================================================== *)
(** ** Stored settings and the settings tab (current revision) *)
(* ================================================================== *)

(** The settings as the object that [saveData] stores. *)
Definition settings_object (s : AITitlePluginSettings)
  : list (string * value) :=
  [("provider", Str (provider s));
   ("anthropicApiKey", Str (anthropicApiKey s));
   ("openaiApiKey", Str (openaiApiKey s));
   ("geminiApiKey", Str (geminiApiKey s));
   ("maxTitleLength", Number (maxTitleLength s));
   ("anthropicModel", Str (anthropicModel s));
   ("openaiModel", Str (openaiModel s));
   ("geminiModel", Str (geminiModel s));
   ("customPrompt", Str (customPrompt s))].

(** The own enumerable properties of a value: those of an object, the
    indices of an array or of a string, none for the rest. *)
Fixpoint index_props (i : nat) (l : list value) : list (string * value) :=
  match l with
  | [] => []
  | v :: r => (number_toString (Z.of_nat i), v) :: index_props (S i) r
  end.

Fixpoint chars (s : string) : list value :=
  match s with
  | EmptyString => []
  | String c r => Str (String c EmptyString) :: chars r
  end.

Definition own_props (v : value) : list (string * value) :=
  match v with
  | Object ps => ps
  | Array l => index_props 0 l
  | Str s => index_props 0 (chars s)
  | Undefined | Null | Bool _ | Number _ => []
  end.

(** An object as [Object.assign] builds it: its own properties, by key,
    and its prototype, which is [Object.prototype] until an assignment to
    [__proto__] puts an object, an array or [null] in its place. *)
Inductive prototype :=
| ObjectPrototype
| Replaced (v : value).

Record object := {
  own_property : string -> option value;
  object_prototype : prototype
}.

(** [{}] *)
Definition empty_object : object :=
  {| own_property := fun _ => None; object_prototype := ObjectPrototype |}.

Definition proto_key : string := "__proto__".

(** Whether an assignment to [__proto__] on an object without such an own
    property reaches the setter of [Object.prototype]: it does unless the
    prototype is [null], or is a parsed object with a data property of
    that name. *)
Definition has_proto_setter (p : prototype) : bool :=
  match p with
  | ObjectPrototype => true
  | Replaced (Object qs) => negb (has_key proto_key qs)
  | Replaced (Array _) => true
  | Replaced _ => false
  end.

Definition define_own (k : string) (v : value) (o : object) : object :=
  {| own_property := fun j => if String.eqb j k then Some v
                              else own_property o j;
     object_prototype := object_prototype o |}.

(** The setter of [__proto__]: an object, an array or [null] becomes the
    prototype, any other value is ignored. *)
Definition set_prototype (v : value) (o : object) : object :=
  match v with
  | Null | Object _ | Array _ =>
      {| own_property := own_property o; object_prototype := Replaced v |}
  | _ => o
  end.

(** [o[k] = v] on an ordinary object whose prototype chain holds writable
    data properties and the accessor [__proto__] only: the value becomes
    an own property, except that [__proto__] goes to the setter when it
    is reached. *)
Definition set_property (k : string) (v : value) (o : object) : object :=
  if String.eqb k proto_key
     && match own_property o k with Some _ => false | None => true end
     && has_proto_setter (object_prototype o)
  then set_prototype v o
  else define_own k v o.

(** An array index: the canonical decimal rendering of an integer from 0
    to 2^32 - 2. *)
Definition array_index (k : string) : option Z :=
  match NilZero.uint_of_string k with
  | Some d =>
      let n := Z.of_N (N.of_uint d) in
      if String.eqb (decimal n) k && (n <? 2 ^ 32 - 1)%Z then Some n
      else None
  | None => None
  end.

Definition is_array_index (k : string) : bool :=
  match array_index k with
  | Some _ => true
  | None => false
  end.

Fixpoint insert_index (n : Z) (k : string) (l : list (Z * string))
  : list (Z * string) :=
  match l with
  | [] => [(n, k)]
  | (m, j) :: r =>
      if (n <? m)%Z then (n, k) :: l else (m, j) :: insert_index n k r
  end.

(** The array indices among the keys, in ascending order. *)
Fixpoint index_keys (ks : list string) : list (Z * string) :=
  match ks with
  | [] => []
  | k :: r =>
      match array_index k with
      | Some n => insert_index n k (index_keys r)
      | None => index_keys r
      end
  end.

(** The keys of a property list, each once, in the order in which they
    first appear. *)
Fixpoint first_keys (ps : list (string * value)) : list string :=
  match ps with
  | [] => []
  | (k, _) :: r =>
      k :: filter (fun j => negb (String.eqb j k)) (first_keys r)
  end.

(** The own property keys in the order of the language: array indices in
    ascending order, then the other keys in the order of their creation. *)
Definition own_keys (ps : list (string * value)) : list string :=
  (map snd (index_keys (first_keys ps))
   ++ filter (fun k => negb (is_array_index k)) (first_keys ps))%list.

(** [Object.assign(target, source)]: for each own enumerable key of the
    source in turn, the value the source has for it is assigned to the
    target. *)
Definition object_assign (target : object) (source : value) : object :=
  fold_left (fun o k => set_property k (assoc k (own_props source)) o)
            (own_keys (own_props source)) target.

(** The settings are read from the own properties of the merged object;
    the nine fields are own properties of it whatever the data, since the
    defaults are assigned first. *)
Definition read_string (o : object) (k : string) : option string :=
  match own_property o k with
  | Some (Str s) => Some s
  | _ => None
  end.

Definition read_number (o : object) (k : string) : option Z :=
  match own_property o k with
  | Some (Number z) => Some z
  | _ => None
  end.

(** The settings object read at the types its interface declares; [None]
    when a field holds a value of another type. *)
Definition settings_of_object (o : object) : option AITitlePluginSettings :=
  match read_string o "provider", read_string o "anthropicApiKey",
        read_string o "openaiApiKey", read_string o "geminiApiKey",
        read_number o "maxTitleLength", read_string o "anthropicModel",
        read_string o "openaiModel", read_string o "geminiModel",
        read_string o "customPrompt" with
  | Some p, Some ak, Some ok, Some gk, Some n, Some am, Some om, Some gm,
    Some cp =>
      Some {| provider := p; anthropicApiKey := ak; openaiApiKey := ok;
              geminiApiKey := gk; maxTitleLength := n;
              anthropicModel := am; openaiModel := om; geminiModel := gm;
              customPrompt := cp |}
  | _, _, _, _, _, _, _, _, _ => None
  end.

(** [Object.assign({}, DEFAULT_SETTINGS, data)] *)
Definition merged_settings (data : value) : object :=
  object_assign
    (object_assign empty_object (Object (settings_object DEFAULT_SETTINGS)))
    data.

(** The prototype that a stored [__proto__] gives the merged object. *)
Definition stored_prototype (data : value) : prototype :=
  match assoc proto_key (own_props data) with
  | Null => Replaced Null
  | Object ps => Replaced (Object ps)
  | Array l => Replaced (Array l)
  | _ => ObjectPrototype
  end.

(** A data file that stores a prototype, an index and an unknown
    property besides a provider. *)
Definition odd_data : value :=
  Object [("provider", Str "openai");
          ("__proto__", Object [("geminiApiKey", Str "g")]);
          ("mine", Bool true);
          ("7", Null)].

(** The plugin as the settings tab acts on it: the settings in memory, the
    content of the data file ([null] when there is none), the notices
    shown and the number of times the tab was drawn again. *)
Record Plugin := {
  plugin_settings : AITitlePluginSettings;
  plugin_data : value;
  plugin_notices : list string;
  plugin_displays : nat
}.

Definition loadSettings (p : Plugin) : option Plugin :=
  match settings_of_object (merged_settings (plugin_data p)) with
  | Some s =>
      Some {| plugin_settings := s;
              plugin_data := plugin_data p;
              plugin_notices := plugin_notices p;
              plugin_displays := plugin_displays p |}
  | None => None
  end.

Definition saveSettings (p : Plugin) : Plugin :=
  {| plugin_settings := plugin_settings p;
     plugin_data := Object (settings_object (plugin_settings p));
     plugin_notices := plugin_notices p;
     plugin_displays := plugin_displays p |}.

Definition set_settings (s : AITitlePluginSettings) (p : Plugin) : Plugin :=
  {| plugin_settings := s;
     plugin_data := plugin_data p;
     plugin_notices := plugin_notices p;
     plugin_displays := plugin_displays p |}.

Definition tab_notice (m : string) (p : Plugin) : Plugin :=
  {| plugin_settings := plugin_settings p;
     plugin_data := plugin_data p;
     plugin_notices := plugin_notices p ++ [m];
     plugin_displays := plugin_displays p |}.

Definition display (p : Plugin) : Plugin :=
  {| plugin_settings := plugin_settings p;
     plugin_data := plugin_data p;
     plugin_notices := plugin_notices p;
     plugin_displays := S (plugin_displays p) |}.

(** Assignments to the fields of the settings. *)
Definition set_provider (v : string) (s : AITitlePluginSettings) :=
  {| provider := v; anthropicApiKey := anthropicApiKey s;
     openaiApiKey := openaiApiKey s; geminiApiKey := geminiApiKey s;
     maxTitleLength := maxTitleLength s;
     anthropicModel := anthropicModel s; openaiModel := openaiModel s;
     geminiModel := geminiModel s; customPrompt := customPrompt s |}.

Definition set_anthropicApiKey (v : string) (s : AITitlePluginSettings) :=
  {| provider := provider s; anthropicApiKey := v;
     openaiApiKey := openaiApiKey s; geminiApiKey := geminiApiKey s;
     maxTitleLength := maxTitleLength s;
     anthropicModel := anthropicModel s; openaiModel := openaiModel s;
     geminiModel := geminiModel s; customPrompt := customPrompt s |}.

Definition set_openaiApiKey (v : string) (s : AITitlePluginSettings) :=
  {| provider := provider s; anthropicApiKey := anthropicApiKey s;
     openaiApiKey := v; geminiApiKey := geminiApiKey s;
     maxTitleLength := maxTitleLength s;
     anthropicModel := anthropicModel s; openaiModel := openaiModel s;
     geminiModel := geminiModel s; customPrompt := customPrompt s |}.

Definition set_geminiApiKey (v : string) (s : AITitlePluginSettings) :=
  {| provider := provider s; anthropicApiKey := anthropicApiKey s;
     openaiApiKey := openaiApiKey s; geminiApiKey := v;
     maxTitleLength := maxTitleLength s;
     anthropicModel := anthropicModel s; openaiModel := openaiModel s;
     geminiModel := geminiModel s; customPrompt := customPrompt s |}.

Definition set_maxTitleLength (v : Z) (s : AITitlePluginSettings) :=
  {| provider := provider s; anthropicApiKey := anthropicApiKey s;
     openaiApiKey := openaiApiKey s; geminiApiKey := geminiApiKey s;
     maxTitleLength := v;
     anthropicModel := anthropicModel s; openaiModel := openaiModel s;
     geminiModel := geminiModel s; customPrompt := customPrompt s |}.

Definition set_anthropicModel (v : string) (s : AITitlePluginSettings) :=
  {| provider := provider s; anthropicApiKey := anthropicApiKey s;
     openaiApiKey := openaiApiKey s; geminiApiKey := geminiApiKey s;
     maxTitleLength := maxTitleLength s;
     anthropicModel := v; openaiModel := openaiModel s;
     geminiModel := geminiModel s; customPrompt := customPrompt s |}.

Definition set_openaiModel (v : string) (s : AITitlePluginSettings) :=
  {| provider := provider s; anthropicApiKey := anthropicApiKey s;
     openaiApiKey := openaiApiKey s; geminiApiKey := geminiApiKey s;
     maxTitleLength := maxTitleLength s;
     anthropicModel := anthropicModel s; openaiModel := v;
     geminiModel := geminiModel s; customPrompt := customPrompt s |}.

Definition set_geminiModel (v : string) (s : AITitlePluginSettings) :=
  {| provider := provider s; anthropicApiKey := anthropicApiKey s;
     openaiApiKey := openaiApiKey s; geminiApiKey := geminiApiKey s;
     maxTitleLength := maxTitleLength s;
     anthropicModel := anthropicModel s; openaiModel := openaiModel s;
     geminiModel := v; customPrompt := customPrompt s |}.

Definition set_customPrompt (v : string) (s : AITitlePluginSettings) :=
  {| provider := provider s; anthropicApiKey := anthropicApiKey s;
     openaiApiKey := openaiApiKey s; geminiApiKey := geminiApiKey s;
     maxTitleLength := maxTitleLength s;
     anthropicModel := anthropicModel s; openaiModel := openaiModel s;
     geminiModel := geminiModel s; customPrompt := v |}.

(** [parseInt(s)] without a radix: leading white space is skipped, a sign
    is read, the prefix 0x or 0X selects base 16, and the longest run of
    digits of the base is the number; [None] stands for NaN.  The result
    is the exact integer: the rounding of the host language for numbers
    beyond 2^53 does not change on which side of a small bound it lies. *)
Definition digit_value (radix : N) (c : ascii) : option N :=
  let n := N_of_ascii c in
  let v := if (48 <=? n)%N && (n <=? 57)%N then Some (n - 48)%N
           else if (97 <=? n)%N && (n <=? 122)%N then Some (n - 87)%N
           else if (65 <=? n)%N && (n <=? 90)%N then Some (n - 55)%N
           else None in
  match v with
  | Some d => if (d <? radix)%N then Some d else None
  | None => None
  end.

Fixpoint parse_digits (radix : N) (acc : option N) (s : string)
  : option N :=
  match s with
  | EmptyString => acc
  | String c r =>
      match digit_value radix c with
      | Some d =>
          parse_digits radix
            (Some match acc with
                  | Some a => (a * radix + d)%N
                  | None => d
                  end) r
      | None => acc
      end
  end.

Definition strip_sign (s : string) : bool * string :=
  match s with
  | String c r =>
      if Ascii.eqb c "-" then (true, r)
      else if Ascii.eqb c "+" then (false, r)
      else (false, s)
  | EmptyString => (false, s)
  end.

Definition strip_hex_prefix (s : string) : N * string :=
  match s with
  | String c (String x r) =>
      if Ascii.eqb c "0" && (Ascii.eqb x "x" || Ascii.eqb x "X")
      then (16%N, r) else (10%N, s)
  | _ => (10%N, s)
  end.

Definition parseInt (s : string) : option Z :=
  let (negative, s2) := strip_sign (trimStart s) in
  let (radix, s3) := strip_hex_prefix s2 in
  match parse_digits radix None s3 with
  | None => None
  | Some n => Some (if negative then (- Z.of_N n)%Z else Z.of_N n)
  end.

(** The handlers of the settings tab. *)
Definition on_provider_change (v : string) (p : Plugin) : Plugin :=
  display (saveSettings (set_settings (set_provider v (plugin_settings p)) p)).

Definition on_api_key_change
    (assign : string -> AITitlePluginSettings -> AITitlePluginSettings)
    (v : string) (p : Plugin) : Plugin :=
  let trimmedValue := trim v in
  let p1 :=
    if negb (String.eqb trimmedValue v)
    then tab_notice "API key trimmed. Please check for extra spaces." p
    else p in
  saveSettings (set_settings (assign trimmedValue (plugin_settings p1)) p1).

Definition on_model_change
    (assign : string -> AITitlePluginSettings -> AITitlePluginSettings)
    (v : string) (p : Plugin) : Plugin :=
  saveSettings (set_settings (assign v (plugin_settings p)) p).

Definition on_max_title_length_change (v : string) (p : Plugin) : Plugin :=
  match parseInt v with
  | None => tab_notice "Please enter a valid number for max title length" p
  | Some numValue =>
      if (numValue <? 10)%Z || (numValue >? 500)%Z
      then tab_notice
             "Title length should be between 10 and 500 characters" p
      else saveSettings
             (set_settings (set_maxTitleLength numValue (plugin_settings p))
                p)
  end.

Definition on_prompt_change (v : string) (p : Plugin) : Plugin :=
  saveSettings (set_settings (set_customPrompt v (plugin_settings p)) p).

Definition on_prompt_reset (p : Plugin) : Plugin :=
  display
    (saveSettings
       (set_settings
          (set_customPrompt (customPrompt DEFAULT_SETTINGS)
             (plugin_settings p)) p)).

(** What the user can do in the settings tab. *)
Inductive action : Type :=
| ChooseProvider (v : string)
| TypeAnthropicKey (v : string)
| TypeOpenAIKey (v : string)
| TypeGeminiKey (v : string)
| ChooseAnthropicModel (v : string)
| ChooseOpenAIModel (v : string)
| ChooseGeminiModel (v : string)
| TypeMaxTitleLength (v : string)
| TypePrompt (v : string)
| ResetPrompt.

Definition handle (a : action) (p : Plugin) : Plugin :=
  match a with
  | ChooseProvider v => on_provider_change v p
  | TypeAnthropicKey v => on_api_key_change set_anthropicApiKey v p
  | TypeOpenAIKey v => on_api_key_change set_openaiApiKey v p
  | TypeGeminiKey v => on_api_key_change set_geminiApiKey v p
  | ChooseAnthropicModel v => on_model_change set_anthropicModel v p
  | ChooseOpenAIModel v => on_model_change set_openaiModel v p
  | ChooseGeminiModel v => on_model_change set_geminiModel v p
  | TypeMaxTitleLength v => on_max_title_length_change v p
  | TypePrompt v => on_prompt_change v p
  | ResetPrompt => on_prompt_reset p
  end.

(** The data file holds the settings in memory. *)
Definition synced (p : Plugin) : Prop :=
  plugin_data p = Object (settings_object (plugin_settings p)).

Definition in_range (s : AITitlePluginSettings) : bool :=
  (10 <=? maxTitleLength s)%Z && (maxTitleLength s <=? 500)%Z.

(** A plugin just installed: default settings in memory, no data file. *)
Definition fresh_plugin : Plugin :=
  {| plugin_settings := DEFAULT_SETTINGS;
     plugin_data := Null;
     plugin_notices := [];
     plugin_displays := 0 |}.

(** The settings object that the revision in main.ts stores: the same
    fields without the prompt template. *)
Definition main_ts_settings_object (s : AITitlePluginSettings)
  : list (string * value) :=
  [("provider", Str (provider s));
   ("anthropicApiKey", Str (anthropicApiKey s));
   ("openaiApiKey", Str (openaiApiKey s));
   ("geminiApiKey", Str (geminiApiKey s));
   ("maxTitleLength", Number (maxTitleLength s));
   ("anthropicModel", Str (anthropicModel s));
   ("openaiModel", Str (openaiModel s));
   ("geminiModel", Str (geminiModel s))].




(** A response whose error message cannot be converted to a string. *)
Definition unprintable : RequestUrlResponse :=
  {| status := 500;
     json := Object [("error",
                      Object [("message",
                               Object [("toString", Number 1)])])] |}.

(* ================================================================== *)
(** * Properties *)
(* ================================================================== *)

(** ** Strings *)


Lemma prefix_append (a b : string) : prefix a (a ++ b) = true.
Proof.
  induction a as [|x r IH]; simpl.
  - now destruct b.
  - destruct (ascii_dec x x) as [_|n]; [exact IH | now elim n].
Qed.

Lemma prefix_append_r (a s t : string) :
  prefix a s = true -> prefix a (s ++ t) = true.
Proof.
  revert s. induction a as [|x a' IH]; intros s H;
    [now destruct (s ++ t)|].
  destruct s as [|y s']; [discriminate|]. simpl in *.
  destruct (ascii_dec x y) as [_|_]; [now apply IH | discriminate].
Qed.




(** Induction two characters at a time, the way [replace_dotdot] recurses. *)
Lemma string_pair_ind (P : string -> Prop) :
  P EmptyString ->
  (forall c, P (String c EmptyString)) ->
  (forall c d r, P r -> P (String d r) -> P (String c (String d r))) ->
  forall s, P s.
Proof.
  intros H0 H1 H2 s.
  assert (H : P s /\ forall c, P (String c s)).
  { induction s as [|d r [IHa IHb]].
    - split; [exact H0 | exact H1].
    - split; [apply IHb | intros c; apply H2; [exact IHa | apply IHb]]. }
  exact (proj1 H).
Qed.

Lemma all_chars_occurs (p : ascii -> bool) (s : string) (c : ascii) :
  all_chars p s = true -> occurs c s -> p c = true.
Proof.
  induction s as [|d r IH]; simpl; [tauto|].
  intros H [->|Hc]; apply andb_true_iff in H; [tauto | apply IH; tauto].
Qed.

Lemma all_chars_append (p : ascii -> bool) (a b : string) :
  all_chars p (a ++ b) = all_chars p a && all_chars p b.
Proof.
  induction a as [|c r IH]; simpl; [reflexivity|].
  now rewrite IH, andb_assoc.
Qed.

(** ** trim *)

Lemma trimStart_starts_clean (s : string) : starts_clean (trimStart s) = true.
Proof.
  induction s as [|c r IH]; simpl; [reflexivity|].
  destruct (is_white_space c) eqn:E; [exact IH | simpl; now rewrite E].
Qed.

Lemma trimStart_fixed (s : string) :
  starts_clean s = true -> trimStart s = s.
Proof.
  destruct s as [|c r]; simpl; [reflexivity|].
  now destruct (is_white_space c).
Qed.

Lemma trimEnd_starts_clean (s : string) :
  starts_clean s = true -> starts_clean (trimEnd s) = true.
Proof.
  destruct s as [|c r]; simpl; [reflexivity|].
  intros H. destruct (is_white_space c) eqn:E; [discriminate|].
  rewrite andb_false_r. simpl. now rewrite E.
Qed.

Lemma trimEnd_idempotent (s : string) : trimEnd (trimEnd s) = trimEnd s.
Proof.
  induction s as [|c r IH]; simpl; [reflexivity|].
  destruct (is_empty (trimEnd r) && is_white_space c) eqn:E;
    [reflexivity|].
  simpl. now rewrite IH, E.
Qed.

Lemma trim_idempotent (s : string) : trim (trim s) = trim s.
Proof.
  unfold trim.
  rewrite (trimStart_fixed (trimEnd (trimStart s))).
  - apply trimEnd_idempotent.
  - apply trimEnd_starts_clean, trimStart_starts_clean.
Qed.

Lemma all_chars_trimStart (p : ascii -> bool) (s : string) :
  all_chars p s = true -> all_chars p (trimStart s) = true.
Proof.
  induction s as [|c r IH]; simpl; [reflexivity|].
  intros H. apply andb_true_iff in H.
  destruct (is_white_space c); [apply IH; tauto|].
  simpl. apply andb_true_iff. exact H.
Qed.

Lemma all_chars_trimEnd (p : ascii -> bool) (s : string) :
  all_chars p s = true -> all_chars p (trimEnd s) = true.
Proof.
  induction s as [|c r IH]; simpl; [reflexivity|].
  intros H. apply andb_true_iff in H.
  destruct (is_empty (trimEnd r) && is_white_space c); [reflexivity|].
  simpl. apply andb_true_iff. split; [tauto | apply IH; tauto].
Qed.

Lemma all_chars_trim (p : ascii -> bool) (s : string) :
  all_chars p s = true -> all_chars p (trim s) = true.
Proof.
  intros H. now apply all_chars_trimEnd, all_chars_trimStart.
Qed.

(** A string of white space trims to nothing. *)
Lemma trim_white_space (s : string) :
  all_chars is_white_space s = true -> trim s = EmptyString.
Proof.
  unfold trim. induction s as [|c r IH]; simpl; [reflexivity|].
  intros H. apply andb_true_iff in H. destruct H as [Hc Hr].
  rewrite Hc. now apply IH.
Qed.

Lemma trimEnd_ends_clean (s : string) : ends_clean (trimEnd s) = true.
Proof.
  induction s as [|c r IH]; [reflexivity|].
  cbn [trimEnd].
  destruct (trimEnd r) as [|d t] eqn:E; cbn [is_empty andb].
  - destruct (is_white_space c) eqn:W; [reflexivity|].
    cbn [ends_clean]. now rewrite W.
  - exact IH.
Qed.

Lemma trimEnd_cons (c : ascii) (r : string) :
  trimEnd (String c r) =
  if is_empty (trimEnd r) && is_white_space c then EmptyString
  else String c (trimEnd r).
Proof. reflexivity. Qed.

Lemma trimEnd_fixed (s : string) : ends_clean s = true -> trimEnd s = s.
Proof.
  induction s as [|c r IH]; [reflexivity|].
  rewrite trimEnd_cons. destruct r as [|d t].
  - cbn [ends_clean trimEnd is_empty andb]. intros H.
    apply negb_true_iff in H. now rewrite H.
  - intros H. change (ends_clean (String d t) = true) in H.
    now rewrite (IH H).
Qed.

Lemma trim_fixed (s : string) : trimmed s = true -> trim s = s.
Proof.
  unfold trimmed, trim. intros H. apply andb_true_iff in H.
  destruct H as [Hs He]. rewrite (trimStart_fixed s Hs).
  now apply trimEnd_fixed.
Qed.

Lemma trim_trimmed (s : string) : trimmed (trim s) = true.
Proof.
  unfold trimmed, trim. apply andb_true_iff. split.
  - apply trimEnd_starts_clean, trimStart_starts_clean.
  - apply trimEnd_ends_clean.
Qed.

(** What [trim] removes: a run of white space before the result and a run
    of white space after it. *)
Lemma trimStart_split (s : string) :
  exists pre, s = pre ++ trimStart s /\ all_chars is_white_space pre = true.
Proof.
  induction s as [|c r [pre [E W]]].
  - exists EmptyString. split; reflexivity.
  - cbn [trimStart]. destruct (is_white_space c) eqn:C.
    + exists (String c pre). split.
      * cbn [append]. now rewrite <- E.
      * cbn [all_chars]. now rewrite C, W.
    + exists EmptyString. split; reflexivity.
Qed.

Lemma trimEnd_split (s : string) :
  exists post, s = trimEnd s ++ post /\ all_chars is_white_space post = true.
Proof.
  induction s as [|c r [post [E W]]].
  - exists EmptyString. split; reflexivity.
  - rewrite trimEnd_cons.
    destruct (trimEnd r) as [|d t] eqn:T; cbn [is_empty andb].
    + destruct (is_white_space c) eqn:C.
      * exists (String c post). split.
        -- cbn [append] in *. now rewrite <- E.
        -- cbn [all_chars]. now rewrite C, W.
      * exists post. split; [|exact W].
        cbn [append] in *. now rewrite <- E.
    + exists post. split; [|exact W].
      cbn [append] in *. now rewrite <- E.
Qed.

Lemma trim_split (s : string) :
  exists pre post,
    s = pre ++ trim s ++ post /\
    all_chars is_white_space pre = true /\
    all_chars is_white_space post = true.
Proof.
  destruct (trimStart_split s) as [pre [E W]].
  destruct (trimEnd_split (trimStart s)) as [post [E' W']].
  exists pre, post. unfold trim. split; [|split; assumption].
  now rewrite <- E', <- E.
Qed.

(** ** The sanitizer *)

Lemma remove_invalid_valid (s : string) :
  all_chars is_valid (remove_invalid s) = true.
Proof.
  induction s as [|c r IH]; simpl; [reflexivity|].
  destruct (is_invalid c) eqn:E; [exact IH|].
  simpl. unfold is_valid at 1. now rewrite E.
Qed.

Lemma remove_invalid_fixed (s : string) :
  all_chars is_valid s = true -> remove_invalid s = s.
Proof.
  induction s as [|c r IH]; simpl; [reflexivity|].
  intros H. apply andb_true_iff in H. destruct H as [Hc Hr].
  unfold is_valid in Hc. apply negb_true_iff in Hc. rewrite Hc.
  now rewrite IH.
Qed.

Lemma is_dot_eq (c : ascii) : is_dot c = true -> c = "."%char.
Proof. apply Ascii.eqb_eq. Qed.

Lemma replace_dotdot_cons2 (c d : ascii) (r : string) :
  replace_dotdot (String c (String d r)) =
  if is_dot c && is_dot d then String "." (replace_dotdot r)
  else String c (replace_dotdot (String d r)).
Proof. reflexivity. Qed.

Lemma has_dotdot_cons2 (c d : ascii) (r : string) :
  has_dotdot (String c (String d r)) =
  (is_dot c && is_dot d) || has_dotdot (String d r).
Proof. reflexivity. Qed.

Lemma all_chars_replace_dotdot (p : ascii -> bool) (s : string) :
  all_chars p s = true -> all_chars p (replace_dotdot s) = true.
Proof.
  induction s as [|c|c d r IHr IHdr] using string_pair_ind;
    [reflexivity | now intros H |].
  intros H. rewrite replace_dotdot_cons2.
  change (p c && all_chars p (String d r) = true) in H.
  apply andb_true_iff in H. destruct H as [Hc Hdr].
  destruct (is_dot c && is_dot d) eqn:E.
  - apply andb_true_iff in E. destruct E as [Ec _].
    apply is_dot_eq in Ec. subst c.
    cbn [all_chars]. rewrite Hc. simpl. apply IHr.
    cbn [all_chars] in Hdr. apply andb_true_iff in Hdr. tauto.
  - cbn [all_chars]. rewrite Hc. simpl. now apply IHdr.
Qed.

Lemma replace_dotdot_fixed (s : string) :
  has_dotdot s = false -> replace_dotdot s = s.
Proof.
  induction s as [|c|c d r IHr IHdr] using string_pair_ind;
    [reflexivity | reflexivity |].
  rewrite has_dotdot_cons2, replace_dotdot_cons2. intros H.
  apply orb_false_iff in H. destruct H as [E H].
  rewrite E. now rewrite IHdr.
Qed.

Lemma sanitizeFileName_valid (fileName : string) :
  all_chars is_valid (sanitizeFileName fileName) = true.
Proof.
  unfold sanitizeFileName.
  apply all_chars_trim, all_chars_replace_dotdot, remove_invalid_valid.
Qed.

(** The second pass changes nothing unless the first one left two adjacent
    dots behind. *)
Lemma sanitizeFileName_stable (x : string) :
  has_dotdot (sanitizeFileName x) = false ->
  sanitizeFileName (sanitizeFileName x) = sanitizeFileName x.
Proof.
  intros H. unfold sanitizeFileName at 1.
  rewrite (remove_invalid_fixed _ (sanitizeFileName_valid x)).
  rewrite (replace_dotdot_fixed _ H).
  unfold sanitizeFileName. apply trim_idempotent.
Qed.

(** A title made of invalid characters and white space sanitizes to the
    empty string. *)
Lemma remove_invalid_white_space (s : string) :
  all_chars (fun c => is_invalid c || is_white_space c) s = true ->
  all_chars is_white_space (remove_invalid s) = true.
Proof.
  induction s as [|c r IH]; simpl; [reflexivity|].
  intros H. apply andb_true_iff in H. destruct H as [Hc Hr].
  destruct (is_invalid c); [now apply IH|].
  simpl in *. rewrite Hc. now apply IH.
Qed.

Lemma white_space_no_dotdot (s : string) :
  all_chars is_white_space s = true -> has_dotdot s = false.
Proof.
  induction s as [|c r IH]; [reflexivity|].
  cbn [all_chars]. intros H. apply andb_true_iff in H. destruct H as [Hc Hr].
  destruct r as [|d r']; [reflexivity|].
  rewrite has_dotdot_cons2, (IH Hr), orb_false_r.
  destruct (is_dot c) eqn:E; [|reflexivity].
  apply is_dot_eq in E. subst c. discriminate.
Qed.

Lemma sanitizeFileName_blank (title : string) :
  all_chars (fun c => is_invalid c || is_white_space c) title = true ->
  sanitizeFileName title = EmptyString.
Proof.
  intros H. apply remove_invalid_white_space in H.
  unfold sanitizeFileName.
  rewrite (replace_dotdot_fixed _ (white_space_no_dotdot _ H)).
  now apply trim_white_space.
Qed.

(** C4 (defect of the code).  The sanitizer is meant to replace consecutive
    dots, so that no two adjacent dots remain in its output; on an input of
    three dots the second regular expression consumes the first two and
    leaves the third next to their replacement: the output is two adjacent
    dots. *)
Theorem C4_three_dots_become_two :
  sanitizeFileName "..." = ".." /\
  has_dotdot (sanitizeFileName "...") = true.
Proof. split; reflexivity. Qed.

(** C5 (defect of the code, the same one as C4).  The sanitizer is not
    idempotent: three dots sanitize to two, and two sanitize to one. *)
Theorem C5_not_idempotent_on_three_dots :
  sanitizeFileName "..." = ".." /\
  sanitizeFileName (sanitizeFileName "...") = "." /\
  sanitizeFileName (sanitizeFileName "...") <> sanitizeFileName "...".
Proof. repeat split; try reflexivity. discriminate. Qed.

(** C6.  Whatever the input (in particular when it contains some of the
    characters backslash, slash, colon, star, question mark, double quote,
    less-than, greater-than, vertical bar), none of these characters
    occurs in the output of the sanitizer. *)
Theorem C6_sanitized_has_no_invalid_char (fileName : string) (c : ascii) :
  is_invalid c = true -> ~ occurs c (sanitizeFileName fileName).
Proof.
  intros Hc Hocc.
  pose proof (all_chars_occurs _ _ _ (sanitizeFileName_valid fileName) Hocc)
    as H.
  unfold is_valid in H. rewrite Hc in H. discriminate.
Qed.

Lemma C6_witness :
  is_invalid "/" = true /\
  occurs "/" "a/b:c?" /\
  ~ occurs "/" (sanitizeFileName "a/b:c?").
Proof.
  split; [reflexivity|]. split; [simpl; tauto|].
  apply (C6_sanitized_has_no_invalid_char "a/b:c?" "/"). reflexivity.
Defined.

(** ** The new path *)

Lemma no_slash_append (a b : string) :
  no_slash (a ++ b) = no_slash a && no_slash b.
Proof.
  induction a as [|c r IH]; simpl; [reflexivity|].
  now rewrite IH, andb_assoc.
Qed.

Lemma dir_prefix_has_slash (c : ascii) (r : string) :
  is_dir_prefix (String c r) = true -> no_slash (String c r) = false.
Proof.
  revert c. induction r as [|d r' IH]; intros c H.
  - simpl in *. now rewrite H.
  - change (is_dir_prefix (String d r') = true) in H.
    change (negb (is_slash c) && no_slash (String d r') = false).
    rewrite (IH d H). apply andb_false_r.
Qed.

Lemma exec_last_segment_file_name (n : string) :
  is_file_name n = true -> exec_last_segment n = Some (EmptyString, n).
Proof.
  unfold is_file_name. intros H. apply andb_true_iff in H.
  destruct H as [Hne Hns]. destruct n as [|c r]; [discriminate|].
  cbn [exec_last_segment]. now rewrite Hns.
Qed.

(** The regular expression matches exactly the file name. *)
Lemma exec_last_segment_split (dir name : string) :
  is_dir_prefix dir = true -> is_file_name name = true ->
  exec_last_segment (dir ++ name) = Some (dir, name).
Proof.
  intros Hd Hn. induction dir as [|c r IH].
  - now apply exec_last_segment_file_name.
  - change (String c r ++ name) with (String c (r ++ name)).
    cbn [exec_last_segment].
    change (String c (r ++ name)) with (String c r ++ name).
    rewrite no_slash_append, (dir_prefix_has_slash c r Hd). cbn [andb].
    destruct r as [|d r'].
    + simpl. now rewrite (exec_last_segment_file_name name Hn).
    + now rewrite (IH Hd).
Qed.

(** Whatever the replacement, the directory is kept. *)
Lemma replace_last_segment_dir (dir name repl : string) :
  is_dir_prefix dir = true -> is_file_name name = true ->
  replace_last_segment (dir ++ name) repl =
  dir ++ getSubstitution name dir EmptyString repl.
Proof.
  intros Hd Hn. unfold replace_last_segment.
  now rewrite (exec_last_segment_split dir name Hd Hn).
Qed.

Lemma getSubstitution_no_dollar (m b a repl : string) :
  no_dollar repl = true -> getSubstitution m b a repl = repl.
Proof.
  unfold no_dollar. induction repl as [|c r IH]; [reflexivity|].
  cbn [all_chars getSubstitution]. intros H.
  apply andb_true_iff in H. destruct H as [Hc Hr].
  apply negb_true_iff in Hc. rewrite Hc. now rewrite IH.
Qed.

(** A replacement free of dollar signs takes the place of the file name as
    it is. *)
Lemma replace_last_segment_plain (dir name repl : string) :
  is_dir_prefix dir = true -> is_file_name name = true ->
  no_dollar repl = true ->
  replace_last_segment (dir ++ name) repl = dir ++ repl.
Proof.
  intros Hd Hn Hr. rewrite (replace_last_segment_dir _ _ _ Hd Hn).
  now rewrite getSubstitution_no_dollar.
Qed.

(** ** What a provider call leaves untouched *)

Lemma quiet_refl (w : World) : quiet w w.
Proof.
  repeat split. exists []. now rewrite app_nil_r.
Qed.

Lemma quiet_trans (w1 w2 w3 : World) :
  quiet w1 w2 -> quiet w2 w3 -> quiet w1 w3.
Proof.
  intros (E1 & F1 & evs1 & A1 & R1) (E2 & F2 & evs2 & A2 & R2).
  repeat split; [congruence | congruence |].
  exists (evs1 ++ evs2)%list. split.
  - now rewrite A2, A1, app_assoc.
  - unfold renames in *. now rewrite flat_map_app, R1, R2.
Qed.

Lemma quiet_log (e : event) (w : World) :
  renames [e] = [] -> quiet w (log e w).
Proof. intros H. repeat split. now exists [e]. Qed.

Lemma preserves_ret {A} (a : A) : preserves (ret a).
Proof. intros w. apply quiet_refl. Qed.

Lemma preserves_throw {A} (e : exn) : preserves (@throw A e).
Proof. intros w. apply quiet_refl. Qed.

Lemma preserves_lift {A} (r : exn + A) : preserves (lift r).
Proof. intros w. apply quiet_refl. Qed.

Lemma preserves_console_error (l : string) (e : exn) :
  preserves (console_error l e).
Proof. intros w. now apply quiet_log. Qed.

Lemma preserves_requestUrl (app : Host) (req : RequestUrlParam) :
  preserves (requestUrl app req).
Proof. intros w. now apply quiet_log. Qed.

Lemma preserves_bind {A B} (c : M A) (k : A -> M B) :
  preserves c -> (forall a, preserves (k a)) -> preserves (bind c k).
Proof.
  intros Hc Hk w. unfold bind. specialize (Hc w).
  destruct (c w) as [[e|a] w']; [exact Hc|].
  exact (quiet_trans _ _ _ Hc (Hk a w')).
Qed.

Lemma preserves_try_catch {A} (c : M A) (h : exn -> M A) :
  preserves c -> (forall e, preserves (h e)) -> preserves (try_catch c h).
Proof.
  intros Hc Hh w. unfold try_catch. specialize (Hc w).
  destruct (c w) as [[e|a] w']; [|exact Hc].
  exact (quiet_trans _ _ _ Hc (Hh e w')).
Qed.

Create HintDb quiet.
#[export] Hint Resolve preserves_ret preserves_throw preserves_lift
  preserves_console_error preserves_requestUrl : quiet.

Ltac quiet_steps :=
  repeat first
    [ apply preserves_bind; [|intros ?]
    | apply preserves_try_catch; [|intros ?]
    | match goal with |- preserves (if ?b then _ else _) => destruct b end
    | solve [auto with quiet] ].

Lemma preserves_makeAPIRequest app url headers body :
  preserves (makeAPIRequest app url headers body).
Proof. unfold makeAPIRequest. quiet_steps. Qed.

Lemma preserves_parse_response name p data :
  preserves (parse_response name p data).
Proof. unfold parse_response. quiet_steps. Qed.

#[export] Hint Resolve preserves_makeAPIRequest preserves_parse_response
  : quiet.

Lemma preserves_callProvider app settings text :
  preserves (callProvider app settings text).
Proof.
  unfold callProvider, callAnthropicAPI, callOpenAIAPI, callGeminiAPI.
  quiet_steps.
Qed.

(** ** The command, case by case *)

Section Cases.

Variable app : Host.
Variable settings : AITitlePluginSettings.
Variable w : World.

Lemma generateTitle_no_key :
  is_empty (getApiKey settings) = true ->
  generateTitle app settings w =
  (inr tt, log (ENotice (key_notice settings)) w).
Proof.
  intros H. unfold generateTitle. rewrite H. reflexivity.
Qed.

Lemma generateTitle_no_file :
  is_empty (getApiKey settings) = false ->
  view_file w = None ->
  generateTitle app settings w =
  (inr tt, log (ENotice "No file is currently open") (log EGetValue w)).
Proof.
  intros Hk Hf. unfold generateTitle.
  rewrite Hk. unfold bind, getValue, getFile. cbn [log view_file].
  rewrite Hf. reflexivity.
Qed.

Section WithFile.

Variable path : string.
Hypothesis Hkey : is_empty (getApiKey settings) = false.
Hypothesis Hfile : view_file w = Some path.

Lemma generateTitle_with_file :
  generateTitle app settings w =
  try_catch
    (bind (callProvider app settings (editor_value w))
       (fun title =>
          if negb (is_empty title) then
            bind (renameFile app path (target path title))
                 (fun _ => Notice "Title updated successfully")
          else ret tt))
    (fun error =>
       bind (console_error "Error generating title:" error)
            (fun _ => Notice ("Failed to generate title: " ++
                              error_message error)))
    (started w).
Proof.
  unfold generateTitle.
  rewrite Hkey. unfold bind at 1 2 3, getValue, getFile.
  cbn [log view_file]. rewrite Hfile. reflexivity.
Qed.

Lemma generateTitle_provider_throws (e : exn) (w2 : World) :
  callProvider app settings (editor_value w) (started w) = (inl e, w2) ->
  generateTitle app settings w = (inr tt, failed e w2).
Proof.
  intros H. rewrite generateTitle_with_file.
  unfold try_catch, bind at 1. rewrite H. reflexivity.
Qed.

Lemma generateTitle_empty_title (w2 : World) :
  callProvider app settings (editor_value w) (started w) =
    (inr EmptyString, w2) ->
  generateTitle app settings w = (inr tt, w2).
Proof.
  intros H. rewrite generateTitle_with_file.
  unfold try_catch, bind at 1. rewrite H. reflexivity.
Qed.

Lemma generateTitle_renames (title : string) (w2 : World) :
  callProvider app settings (editor_value w) (started w) =
    (inr title, w2) ->
  is_empty title = false ->
  generateTitle app settings w =
  (inr tt,
   match host_renameFile app path (target path title) with
   | None =>
       log (ENotice "Title updated successfully")
           (set_path (target path title)
              (log (ERenameFile path (target path title)) w2))
   | Some e =>
       failed e (log (ERenameFile path (target path title)) w2)
   end).
Proof.
  intros H Ht. rewrite generateTitle_with_file.
  unfold try_catch, bind at 1. rewrite H.
  rewrite Ht. cbn [negb]. unfold bind, renameFile.
  destruct (host_renameFile app path (target path title)); reflexivity.
Qed.

End WithFile.

End Cases.

(** ** The command: claims *)

Lemma renames_app (a b : list event) :
  renames (a ++ b) = (renames a ++ renames b)%list.
Proof. apply flat_map_app. Qed.

Lemma events_started (w : World) :
  events (started w) = (events w ++ [EGetValue; ENotice "Generating title..."])%list.
Proof. unfold started. cbn [log events]. now rewrite <- app_assoc. Qed.

(** What the provider call adds to the effects of [started w]. *)
Lemma callProvider_quiet app settings (w : World) :
  let w2 := snd (callProvider app settings (editor_value w) (started w)) in
  view_file w2 = view_file w /\
  exists evs,
    events w2 =
      (events w ++ [EGetValue; ENotice "Generating title..."] ++ evs)%list /\
    renames evs = [].
Proof.
  destruct (preserves_callProvider app settings (editor_value w) (started w))
    as (_ & F & evs & E & R).
  split; [exact F|]. exists evs. split; [|exact R].
  rewrite E, events_started. now rewrite <- app_assoc.
Qed.

(** C2.  When the API key of the active provider is the empty string, the
    command shows the API-key notice and returns: this notice is its only
    effect, so no HTTP request is issued, the document is not read, and
    nothing is renamed. *)
Theorem C2_empty_key_no_request app settings (w : World) :
  getApiKey settings = EmptyString ->
  let r := generateTitle app settings w in
  fst r = inr tt /\
  view_file (snd r) = view_file w /\
  exists evs,
    events (snd r) = (events w ++ evs)%list /\
    evs = [ENotice (key_notice settings)] /\
    requests evs = [] /\ reads evs = 0 /\ renames evs = [].
Proof.
  intros H.
  assert (Hk : is_empty (getApiKey settings) = true) by now rewrite H.
  rewrite (generateTitle_no_key app settings w Hk). cbn.
  repeat split. exists [ENotice (key_notice settings)]. repeat split.
Qed.

Lemma C2_witness :
  let w := world0 "some text" (Some "notes/a.md") in
  let r := generateTitle (answering (anthropic_ok "Foo bar"))
                         DEFAULT_SETTINGS w in
  getApiKey DEFAULT_SETTINGS = EmptyString /\
  fst r = inr tt /\
  view_file (snd r) = view_file w /\
  exists evs,
    events (snd r) = (events w ++ evs)%list /\
    evs = [ENotice "Please set your Anthropic API key in the settings"] /\
    requests evs = [] /\ reads evs = 0 /\ renames evs = [].
Proof.
  split; [reflexivity|].
  apply (C2_empty_key_no_request (answering (anthropic_ok "Foo bar"))
           DEFAULT_SETTINGS (world0 "some text" (Some "notes/a.md"))).
  reflexivity.
Defined.

(** C1.  One run of the command adds at most one rename request to the
    effects.  A rename request is only made for the open file, after the
    provider call has returned a non-empty title, and its target is
    computed from the sanitized title.  When the command fails early (no
    API key, no open file, the provider call throws) no rename is requested
    and the path of the document is unchanged. *)
Theorem C1_rename_at_most_once app settings (w : World) :
  let w' := snd (generateTitle app settings w) in
  exists evs,
    events w' = (events w ++ evs)%list /\
    List.length (renames evs) <= 1 /\
    (forall p q, In (p, q) (renames evs) ->
       view_file w = Some p /\
       exists title w2,
         callProvider app settings (editor_value w) (started w)
           = (inr title, w2) /\
         is_empty title = false /\
         q = replace_last_segment p (sanitizeFileName title ++ ".md") /\
         exists tail,
           events w' = (events w2 ++ ERenameFile p q :: tail)%list /\
           renames tail = []) /\
    (fails_early app settings w ->
       renames evs = [] /\ view_file w' = view_file w).
Proof.
  cbv zeta.
  destruct (is_empty (getApiKey settings)) eqn:Hk.
  { rewrite (generateTitle_no_key app settings w Hk).
    exists [ENotice (key_notice settings)]. cbn.
    repeat split; auto; contradiction. }
  destruct (view_file w) as [path|] eqn:Hf.
  2:{ rewrite (generateTitle_no_file app settings w Hk Hf).
      exists [EGetValue; ENotice "No file is currently open"]. cbn.
      rewrite <- app_assoc.
      repeat split; auto; contradiction. }
  pose proof (callProvider_quiet app settings w) as Q. cbv zeta in Q.
  destruct (callProvider app settings (editor_value w) (started w))
    as [[e|title] w2] eqn:Hc; cbn [snd] in Q;
    destruct Q as (F & evs0 & E & R).
  - rewrite (generateTitle_provider_throws app settings w path Hk Hf e w2 Hc).
    exists ([EGetValue; ENotice "Generating title..."] ++ evs0 ++
            [EConsoleError "Error generating title:" e;
             ENotice ("Failed to generate title: " ++ error_message e)])%list.
    unfold failed. cbn [snd log events view_file].
    rewrite E. rewrite !renames_app, R. cbn.
    repeat split; auto; try contradiction; try congruence.
    now rewrite <- !app_assoc.
  - destruct (is_empty title) eqn:Ht.
    + destruct title; [|discriminate].
      rewrite (generateTitle_empty_title app settings w path Hk Hf w2 Hc).
      exists ([EGetValue; ENotice "Generating title..."] ++ evs0)%list.
      cbn [snd]. rewrite !renames_app, R. cbn.
      repeat split; auto; try contradiction; try congruence.
    + rewrite (generateTitle_renames app settings w path Hk Hf title w2 Hc Ht).
      cbn [snd]. fold (target path title).
      set (q := target path title).
      destruct (host_renameFile app path q) as [e|].
      * exists ([EGetValue; ENotice "Generating title..."] ++ evs0 ++
                [ERenameFile path q;
                 EConsoleError "Error generating title:" e;
                 ENotice ("Failed to generate title: " ++ error_message e)])
               %list.
        unfold failed. cbn [log events view_file].
        rewrite !renames_app, R. cbn. split.
        { rewrite E. now rewrite <- !app_assoc. }
        split; [auto|]. split.
        { intros p q' [Hpq|[]]. injection Hpq as <- <-. split; [reflexivity|].
          exists title, w2. repeat split; auto.
          exists [EConsoleError "Error generating title:" e;
                  ENotice ("Failed to generate title: " ++ error_message e)].
          split; [|reflexivity]. now rewrite <- !app_assoc. }
        { intros [Hx|[Hx|(e' & w3 & Hx)]]; congruence. }
      * exists ([EGetValue; ENotice "Generating title..."] ++ evs0 ++
                [ERenameFile path q;
                 ENotice "Title updated successfully"])%list.
        cbn [log set_path events view_file].
        rewrite !renames_app, R. cbn. split.
        { rewrite E. now rewrite <- !app_assoc. }
        split; [auto|]. split.
        { intros p q' [Hpq|[]]. injection Hpq as <- <-. split; [reflexivity|].
          exists title, w2. repeat split; auto.
          exists [ENotice "Title updated successfully"].
          split; [|reflexivity]. now rewrite <- !app_assoc. }
        { intros [Hx|[Hx|(e' & w3 & Hx)]]; congruence. }
Qed.

Lemma C1_witness :
  let w := world0 "some text" (Some "notes/a.md") in
  let w' := snd (generateTitle (answering (anthropic_ok "Foo bar"))
                               (with_anthropic_key "k") w) in
  exists evs,
    events w' = (events w ++ evs)%list /\ List.length (renames evs) <= 1.
Proof.
  destruct (C1_rename_at_most_once (answering (anthropic_ok "Foo bar"))
              (with_anthropic_key "k")
              (world0 "some text" (Some "notes/a.md")))
    as (evs & E & L & _).
  exists evs. split; [exact E | exact L].
Defined.

(** The title is put in place of the file name as it is when it holds no
    dollar sign; the directory is kept in every case
    ([replace_last_segment_dir]). *)
Lemma target_plain (dir name title : string) :
  is_dir_prefix dir = true -> is_file_name name = true ->
  no_dollar (sanitizeFileName title) = true ->
  target (dir ++ name) title = dir ++ sanitizeFileName title ++ ".md".
Proof.
  intros Hd Hn Ht. unfold target.
  apply replace_last_segment_plain; auto.
  unfold no_dollar in *. rewrite all_chars_append, Ht. reflexivity.
Qed.

(** C8 (defect of the code).  The new path is built with
    [String.prototype.replace], which expands dollar patterns in its
    replacement string, and the sanitizer keeps dollar signs.  For the
    title of two dollar signs and the file notes/a.md the rename is
    requested to notes/$.md, not to the directory followed by the sanitized
    title and the extension. *)
Theorem C8_dollar_title_changes_name :
  let w := world0 "some text" (Some "notes/a.md") in
  let w' := snd (generateTitle (answering (anthropic_ok "$$"))
                               (with_anthropic_key "k") w) in
  sanitizeFileName "$$" = "$$" /\
  renames (events w') = [("notes/a.md", "notes/$.md")] /\
  "notes/$.md" <> "notes/" ++ sanitizeFileName "$$" ++ ".md".
Proof.
  cbv zeta. split; [reflexivity|]. split; [reflexivity|].
  vm_compute. discriminate.
Qed.

(** C10.  The guard before the rename tests the title as the provider
    returned it.  A non-empty title made only of invalid file-name
    characters and white space sanitizes to the empty string, and the
    rename is still requested, to the directory of the file followed by
    the bare extension. *)
Theorem C10_blank_title_still_renamed app settings (w w2 : World)
    (dir name title : string) :
  is_empty (getApiKey settings) = false ->
  view_file w = Some (dir ++ name) ->
  is_dir_prefix dir = true ->
  is_file_name name = true ->
  callProvider app settings (editor_value w) (started w) = (inr title, w2) ->
  is_empty title = false ->
  all_chars (fun c => is_invalid c || is_white_space c) title = true ->
  sanitizeFileName title = EmptyString /\
  exists tail,
    events (snd (generateTitle app settings w)) =
    (events w2 ++ ERenameFile (dir ++ name) (dir ++ ".md") :: tail)%list.
Proof.
  intros Hk Hf Hd Hn Hc Ht Hb.
  pose proof (sanitizeFileName_blank title Hb) as Hs.
  split; [exact Hs|].
  rewrite (generateTitle_renames app settings w (dir ++ name) Hk Hf
             title w2 Hc Ht).
  assert (Hq : target (dir ++ name) title = dir ++ ".md").
  { rewrite (target_plain dir name title Hd Hn); rewrite Hs; reflexivity. }
  rewrite Hq. cbn [snd].
  destruct (host_renameFile app (dir ++ name) (dir ++ ".md")) as [e|].
  - exists [EConsoleError "Error generating title:" e;
            ENotice ("Failed to generate title: " ++ error_message e)].
    unfold failed. cbn [log events]. now rewrite <- !app_assoc.
  - exists [ENotice "Title updated successfully"].
    cbn [log set_path events]. now rewrite <- !app_assoc.
Qed.

Lemma C10_witness :
  let app := answering (anthropic_ok "???") in
  let settings := with_anthropic_key "k" in
  let w := world0 "some text" (Some "notes/a.md") in
  sanitizeFileName "???" = EmptyString /\
  exists tail,
    events (snd (generateTitle app settings w)) =
    (events (snd (callProvider app settings (editor_value w) (started w)))
       ++ ERenameFile "notes/a.md" "notes/.md" :: tail)%list.
Proof.
  cbv zeta.
  apply (C10_blank_title_still_renamed
           (answering (anthropic_ok "???")) (with_anthropic_key "k")
           (world0 "some text" (Some "notes/a.md"))
           (snd (callProvider (answering (anthropic_ok "???"))
                   (with_anthropic_key "k") "some text"
                   (started (world0 "some text" (Some "notes/a.md")))))
           "notes/" "a.md" "???").
  - reflexivity.
  - reflexivity.
  - reflexivity.
  - reflexivity.
  - reflexivity.
  - reflexivity.
  - reflexivity.
Defined.

(** ** Reading a response: the guard *)

Lemma truthy_not_nullish (v : value) : truthy v = true -> nullish v = false.
Proof. now destruct v. Qed.

(** Only a dereference of [undefined] or [null] throws. *)
Lemma step_defined (a : accessor) (v : value) :
  nullish v = false -> exists v', step a v = inr v'.
Proof.
  intros H. destruct a as [k|i], v; try discriminate; simpl; eauto.
Qed.

Lemma any_falsy_under (a : accessor) (data v : value)
    (ps : list (list accessor)) :
  step a data = inr v ->
  any_falsy data (map (cons a) ps) = any_falsy v ps.
Proof.
  intros H. induction ps as [|p r IH]; [reflexivity|].
  cbn [map any_falsy access]. rewrite H.
  destruct (access v p) as [e|x]; [reflexivity|].
  destruct (truthy x); [exact IH | reflexivity].
Qed.

(** On a response that is not itself [null], the guard never throws; when
    it lets the response through, the extraction path leads to a truthy
    value. *)
Lemma guard_total (p : list accessor) :
  forall data, nullish data = false ->
    any_falsy data (prefixes p) = inr true \/
    (any_falsy data (prefixes p) = inr false /\
     exists v, access data p = inr v /\ (p <> [] -> truthy v = true)).
Proof.
  induction p as [|a r IH]; intros data Hd.
  - right. split; [reflexivity|]. exists data. split; [reflexivity|].
    now intros H.
  - destruct (step_defined a data Hd) as [v1 Hs].
    cbn [prefixes any_falsy access]. rewrite Hs.
    destruct (truthy v1) eqn:Ht; [|now left].
    rewrite (any_falsy_under a data v1 _ Hs).
    destruct (IH v1 (truthy_not_nullish v1 Ht)) as [H|(H & v & Hv & Hp)];
      [now left|].
    right. split; [exact H|]. exists v. split; [exact Hv|].
    intros _. destruct r as [|b r']; [|apply Hp; discriminate].
    simpl in Hv. injection Hv as <-. exact Ht.
Qed.

Lemma any_falsy_false (data : value) (ps : list (list accessor)) :
  any_falsy data ps = inr false ->
  forall q, In q ps -> exists v, access data q = inr v /\ truthy v = true.
Proof.
  induction ps as [|p r IH]; intros H q Hq; [contradiction|].
  cbn [any_falsy] in H. destruct (access data p) as [e|x] eqn:Ha;
    [discriminate|].
  destruct (truthy x) eqn:Ht; [|discriminate].
  destruct Hq as [<-|Hq]; [eauto | now apply IH].
Qed.

(** In the current revision a response that is not [null] and lacks a
    segment of the extraction path (the value at some prefix of the path
    is absent or falsy) is refused with the format error. *)
Lemma parse_response_missing_segment (name : string) (p q : list accessor)
    (data : value) (w : World) :
  nullish data = false ->
  In q (prefixes p) ->
  (forall v, access data q = inr v -> truthy v = false) ->
  parse_response name p data w = (inl (format_error name), w).
Proof.
  intros Hd Hq Hmiss. unfold parse_response, bind, lift.
  destruct (guard_total p data Hd) as [H|(H & _)]; rewrite H;
    [reflexivity|].
  destruct (any_falsy_false data _ H q Hq) as (v & Hv & Ht).
  rewrite (Hmiss v Hv) in Ht. discriminate.
Qed.

(** In the current revision, the outcome for a response that is not [null]
    is the format error or the result of [trim] on a truthy value. *)
Lemma parse_response_outcome (name : string) (p : list accessor)
    (data : value) (w : World) :
  nullish data = false -> p <> [] ->
  parse_response name p data w = (inl (format_error name), w) \/
  exists v, access data p = inr v /\ truthy v = true /\
            parse_response name p data w = (call_trim v, w).
Proof.
  intros Hd Hp. unfold parse_response, bind, lift.
  destruct (guard_total p data Hd) as [H|(H & v & Hv & Ht)]; rewrite H;
    [now left|].
  right. exists v. rewrite Hv. auto.
Qed.

(** C3 (defect of the code).  A response that lacks a segment of the
    extraction path is to be refused with the format error, without a
    dereference of null or undefined.  The revision in main.ts reads the
    title off the response without any guard: on the response {} with
    status 200 the call ends in the [TypeError] of indexing undefined.
    The current revision guards every segment but not the response itself:
    on the response null with status 200 the call ends in the [TypeError]
    of reading a property of null. *)
Theorem C3_unguarded_dereference :
  let w := world0 "some text" (Some "notes/a.md") in
  let settings := with_anthropic_key "k" in
  fst (MainTs.callAnthropicAPI
         (answering {| status := 200; json := Object [] |})
         settings "some text" w)
    = inl (TypeError "Cannot read properties of undefined (reading '0')") /\
  fst (callAnthropicAPI
         (answering {| status := 200; json := Null |})
         settings "some text" w)
    = inl (TypeError "Cannot read properties of null (reading 'content')").
Proof. split; reflexivity. Qed.

(** ** Failed requests *)










Example callAnthropicAPI_rate_limited :
  fst (callAnthropicAPI (answering rate_limited) (with_anthropic_key "k")
         "some text" (world0 "some text" (Some "notes/a.md")))
  = inl (Error "API request failed with status 429: rate limited").
Proof. reflexivity. Qed.

(** C7 (defect of the code).  The error for a response whose status is not
    200 is to carry the status and the text of the provider's error
    envelope.  [makeAPIRequest] of the current revision does so
    ([makeAPIRequest_not_200]); the call in main.ts reports the status
    alone: for status 429 and the envelope with the message rate limited
    its error message is API request failed: 429, which includes the
    status but not the text of the provider. *)
Theorem C7_main_ts_drops_provider_text :
  let r := fst (MainTs.callAnthropicAPI (answering rate_limited)
                  (with_anthropic_key "k") "some text"
                  (world0 "some text" (Some "notes/a.md"))) in
  r = inl (Error "API request failed: 429") /\
  includes "API request failed: 429" "429" = true /\
  includes "API request failed: 429" "rate limited" = false.
Proof. repeat split. Qed.

(** ** A well-formed response *)

Lemma makeAPIRequest_200 app url headers body (w : World)
    (r : RequestUrlResponse) :
  host_requestUrl app {| url := url; method := "POST";
                         headers := headers; body := body |} = inr r ->
  status r = 200%Z ->
  makeAPIRequest app url headers body w =
  (inr r, log (ERequestUrl {| url := url; method := "POST";
                              headers := headers; body := body |}) w).
Proof.
  intros Hr Hs. unfold makeAPIRequest, bind, requestUrl.
  rewrite Hr, Hs. reflexivity.
Qed.

Lemma parse_response_anthropic (ps qs : list (string * value))
    (more : list value) (s : string) (w : World) :
  assoc "content" ps = Array (Object qs :: more) ->
  assoc "text" qs = Str s ->
  is_empty s = false ->
  parse_response "Anthropic" anthropic_path (Object ps) w = (inr (trim s), w).
Proof.
  intros Hc Ht Hs. unfold parse_response, bind, lift.
  cbn [anthropic_path prefixes map any_falsy access step get].
  rewrite Hc. unfold get_index. cbn [nth truthy get]. rewrite Ht.
  cbn [truthy]. rewrite Hs. reflexivity.
Qed.

(** C9.  For a response with status 200 whose JSON has the Anthropic shape
    (an object whose content is an array, the first element of which is an
    object whose text is the non-empty string s), [callAnthropicAPI]
    returns s without its surrounding white space: s is a run of white
    space, then the result, then a run of white space, and the result
    neither starts nor ends with white space. *)
Theorem C9_anthropic_text_trimmed app settings (text : string) (w : World)
    (r : RequestUrlResponse) (ps qs : list (string * value))
    (more : list value) (s : string) :
  (forall req, host_requestUrl app req = inr r) ->
  status r = 200%Z ->
  json r = Object ps ->
  assoc "content" ps = Array (Object qs :: more) ->
  assoc "text" qs = Str s ->
  is_empty s = false ->
  fst (callAnthropicAPI app settings text w) = inr (trim s) /\
  trimmed (trim s) = true /\
  exists pre post,
    s = pre ++ trim s ++ post /\
    all_chars is_white_space pre = true /\
    all_chars is_white_space post = true.
Proof.
  intros Hr Hs Hj Hc Ht Hne. split; [|split].
  - unfold callAnthropicAPI, try_catch.
    unfold bind at 1.
    rewrite (makeAPIRequest_200 app _ _ _ w r (Hr _) Hs), Hj.
    now rewrite (parse_response_anthropic ps qs more s _ Hc Ht Hne).
  - apply trim_trimmed.
  - apply trim_split.
Qed.

Lemma C9_witness :
  fst (callAnthropicAPI (answering (anthropic_ok (nl ++ "  Foo bar ")))
         (with_anthropic_key "k") "some text"
         (world0 "some text" (Some "notes/a.md")))
  = inr "Foo bar" /\
  fst (callAnthropicAPI (answering (anthropic_ok "Foo bar"))
         (with_anthropic_key "k") "some text"
         (world0 "some text" (Some "notes/a.md")))
  = inr "Foo bar".
Proof.
  split.
  - apply (C9_anthropic_text_trimmed
             (answering (anthropic_ok (nl ++ "  Foo bar ")))
             (with_anthropic_key "k") "some text"
             (world0 "some text" (Some "notes/a.md"))
             (anthropic_ok (nl ++ "  Foo bar "))
             [("content", Array [Object [("text", Str (nl ++ "  Foo bar "))]])]
             [("text", Str (nl ++ "  Foo bar "))] [] (nl ++ "  Foo bar "));
      reflexivity.
  - apply (C9_anthropic_text_trimmed (answering (anthropic_ok "Foo bar"))
             (with_anthropic_key "k") "some text"
             (world0 "some text" (Some "notes/a.md"))
             (anthropic_ok "Foo bar")
             [("content", Array [Object [("text", Str "Foo bar")]])]
             [("text", Str "Foo bar")] [] "Foo bar"); reflexivity.
Defined.

(* ================================================================== *)
(** * Further properties *)
(* ================================================================== *)

(** ** The sanitizer: what it keeps, shortens and leaves alone *)

Lemma length_remove_invalid (s : string) :
  String.length (remove_invalid s) <= String.length s.
Proof.
  induction s as [|c r IH]; [apply le_n|].
  cbn [remove_invalid]. destruct (is_invalid c); cbn [String.length]; lia.
Qed.

Lemma length_replace_dotdot (s : string) :
  String.length (replace_dotdot s) <= String.length s /\
  (has_dotdot s = true ->
   String.length (replace_dotdot s) < String.length s).
Proof.
  induction s as [|c|c d r [IHr _] [IHdr IHlt]] using string_pair_ind.
  - split; [apply le_n | discriminate].
  - split; [apply le_n | discriminate].
  - rewrite replace_dotdot_cons2, has_dotdot_cons2.
    destruct (is_dot c && is_dot d).
    + cbn [String.length orb] in *. split; [lia | intros _; lia].
    + cbn [orb]. cbn [String.length] in *. split; [lia|].
      intros H. specialize (IHlt H). lia.
Qed.

Lemma length_trimStart (s : string) :
  String.length (trimStart s) <= String.length s.
Proof.
  induction s as [|c r IH]; [apply le_n|].
  cbn [trimStart]. destruct (is_white_space c); cbn [String.length]; lia.
Qed.

Lemma length_trimEnd (s : string) :
  String.length (trimEnd s) <= String.length s.
Proof.
  induction s as [|c r IH]; [apply le_n|].
  cbn [trimEnd].
  destruct (is_empty (trimEnd r) && is_white_space c);
    cbn [String.length]; lia.
Qed.

Lemma length_trim (s : string) : String.length (trim s) <= String.length s.
Proof.
  unfold trim. pose proof (length_trimEnd (trimStart s)).
  pose proof (length_trimStart s). lia.
Qed.

(** X1.  The sanitizer only removes: its output is never longer than its
    input. *)
Theorem sanitizeFileName_not_longer (fileName : string) :
  String.length (sanitizeFileName fileName) <= String.length fileName.
Proof.
  unfold sanitizeFileName.
  pose proof (length_trim (replace_dotdot (remove_invalid fileName))).
  pose proof (proj1 (length_replace_dotdot (remove_invalid fileName))).
  pose proof (length_remove_invalid fileName). lia.
Qed.

(** X2.  The output of the sanitizer neither starts nor ends with white
    space, and trimming it again changes nothing. *)
Theorem sanitizeFileName_trimmed (fileName : string) :
  starts_clean (sanitizeFileName fileName) = true /\
  ends_clean (sanitizeFileName fileName) = true /\
  trim (sanitizeFileName fileName) = sanitizeFileName fileName.
Proof.
  unfold sanitizeFileName.
  pose proof (trim_trimmed (replace_dotdot (remove_invalid fileName))) as H.
  split; [|split].
  - unfold trimmed in H. apply andb_true_iff in H. tauto.
  - unfold trimmed in H. apply andb_true_iff in H. tauto.
  - apply trim_idempotent.
Qed.

Lemma sanitizeFileName_clean_fixed (x : string) :
  clean_name x = true -> sanitizeFileName x = x.
Proof.
  unfold clean_name. intros H.
  apply andb_true_iff in H. destruct H as [H Ht].
  apply andb_true_iff in H. destruct H as [Hv Hd].
  apply negb_true_iff in Hd. unfold sanitizeFileName.
  rewrite (remove_invalid_fixed x Hv), (replace_dotdot_fixed x Hd).
  now apply trim_fixed.
Qed.

(** X3.  The names the sanitizer returns unchanged are exactly the clean
    ones: free of the invalid characters, without two adjacent dots, and
    without white space at either end. *)
Theorem sanitizeFileName_fixed_iff_clean (x : string) :
  sanitizeFileName x = x <-> clean_name x = true.
Proof.
  split; [|apply sanitizeFileName_clean_fixed].
  intros H. unfold clean_name.
  assert (Hv : all_chars is_valid x = true).
  { rewrite <- H. apply sanitizeFileName_valid. }
  assert (Ht : trimmed x = true).
  { rewrite <- H. unfold sanitizeFileName. apply trim_trimmed. }
  rewrite Hv, Ht. cbn [andb]. rewrite andb_true_r.
  apply negb_true_iff. destruct (has_dotdot x) eqn:Hd; [|reflexivity].
  exfalso. unfold sanitizeFileName in H.
  rewrite (remove_invalid_fixed x Hv) in H.
  pose proof (length_trim (replace_dotdot x)) as L1.
  pose proof (proj2 (length_replace_dotdot x) Hd) as L2.
  rewrite H in L1. lia.
Qed.

Lemma has_dot3_cons3 (c d e : ascii) (r : string) :
  has_dot3 (String c (String d (String e r))) =
  (is_dot c && is_dot d && is_dot e) || has_dot3 (String d (String e r)).
Proof. reflexivity. Qed.

Lemma has_dot3_tail (c : ascii) (r : string) :
  has_dot3 (String c r) = false -> has_dot3 r = false.
Proof.
  destruct r as [|d [|e r']]; try reflexivity.
  rewrite has_dot3_cons3. intros H. apply orb_false_iff in H. tauto.
Qed.

Lemma has_dotdot_tail (c : ascii) (r : string) :
  has_dotdot (String c r) = false -> has_dotdot r = false.
Proof.
  destruct r as [|d r']; [reflexivity|].
  rewrite has_dotdot_cons2. intros H. apply orb_false_iff in H. tauto.
Qed.

(** The replacement of dot pairs keeps the first character. *)
Lemma replace_dotdot_head (c : ascii) (r : string) :
  exists t, replace_dotdot (String c r) = String c t.
Proof.
  destruct r as [|d r']; [now exists EmptyString|].
  rewrite replace_dotdot_cons2.
  destruct (is_dot c && is_dot d) eqn:E; [|eauto].
  apply andb_true_iff in E. destruct E as [Ec _].
  apply is_dot_eq in Ec. subst c. eauto.
Qed.

(** On a string without three adjacent dots the replacement leaves no two
    adjacent dots. *)
Lemma replace_dotdot_complete (s : string) :
  has_dot3 s = false -> has_dotdot (replace_dotdot s) = false.
Proof.
  induction s as [|c|c d r IHr IHdr] using string_pair_ind;
    [reflexivity | reflexivity |].
  intros H. rewrite replace_dotdot_cons2.
  pose proof (has_dot3_tail _ _ H) as Hdr.
  destruct (is_dot c && is_dot d) eqn:E.
  - pose proof (has_dot3_tail _ _ Hdr) as Hr. specialize (IHr Hr).
    destruct r as [|e r']; [reflexivity|].
    rewrite has_dot3_cons3, E in H. cbn [andb] in H.
    apply orb_false_iff in H. destruct H as [He _].
    destruct (replace_dotdot_head e r') as [t Ht].
    rewrite Ht in *. rewrite has_dotdot_cons2, He, IHr.
    now rewrite andb_false_r.
  - specialize (IHdr Hdr).
    destruct (replace_dotdot_head d r) as [t Ht].
    rewrite Ht in *. now rewrite has_dotdot_cons2, E, IHdr.
Qed.

Lemma has_dotdot_trimStart (s : string) :
  has_dotdot s = false -> has_dotdot (trimStart s) = false.
Proof.
  induction s as [|c r IH]; [reflexivity|].
  intros H. cbn [trimStart]. destruct (is_white_space c); [|exact H].
  apply IH. exact (has_dotdot_tail c r H).
Qed.

Lemma trimEnd_head (c : ascii) (r : string) :
  trimEnd (String c r) = EmptyString \/
  exists t, trimEnd (String c r) = String c t.
Proof.
  rewrite trimEnd_cons.
  destruct (is_empty (trimEnd r) && is_white_space c); eauto.
Qed.

Lemma has_dotdot_trimEnd (s : string) :
  has_dotdot s = false -> has_dotdot (trimEnd s) = false.
Proof.
  induction s as [|c r IH]; [reflexivity|].
  intros H. rewrite trimEnd_cons.
  destruct (is_empty (trimEnd r) && is_white_space c); [reflexivity|].
  specialize (IH (has_dotdot_tail c r H)).
  destruct r as [|d r']; [reflexivity|].
  rewrite has_dotdot_cons2 in H. apply orb_false_iff in H.
  destruct H as [Hcd _].
  destruct (trimEnd_head d r') as [E|[t E]]; rewrite E in *;
    [reflexivity|].
  now rewrite has_dotdot_cons2, Hcd, IH.
Qed.

(** X4.  When the name, once the invalid characters are removed, has no
    three adjacent dots, the sanitizer does collapse its dots: the output
    has no two adjacent dots, and sanitizing it again changes nothing. *)
Theorem sanitizeFileName_collapses_short_runs (x : string) :
  has_dot3 (remove_invalid x) = false ->
  has_dotdot (sanitizeFileName x) = false /\
  sanitizeFileName (sanitizeFileName x) = sanitizeFileName x.
Proof.
  intros H.
  assert (Hd : has_dotdot (sanitizeFileName x) = false).
  { unfold sanitizeFileName, trim.
    apply has_dotdot_trimEnd, has_dotdot_trimStart.
    now apply replace_dotdot_complete. }
  split; [exact Hd | now apply sanitizeFileName_stable].
Qed.

Lemma sanitizeFileName_collapses_short_runs_witness :
  has_dot3 (remove_invalid " a..b/..c: ") = false /\
  sanitizeFileName " a..b/..c: " = "a.b.c" /\
  has_dotdot (sanitizeFileName " a..b/..c: ") = false /\
  sanitizeFileName (sanitizeFileName " a..b/..c: ")
    = sanitizeFileName " a..b/..c: ".
Proof.
  split; [reflexivity|]. split; [reflexivity|].
  apply (sanitizeFileName_collapses_short_runs " a..b/..c: ").
  reflexivity.
Defined.

(** ** The new path: staying in the directory *)

Lemma valid_no_slash (s : string) :
  all_chars is_valid s = true -> no_slash s = true.
Proof.
  induction s as [|c r IH]; [reflexivity|].
  cbn [all_chars no_slash]. intros H. apply andb_true_iff in H.
  destruct H as [Hc Hr]. rewrite (IH Hr), andb_true_r.
  unfold is_slash. destruct (Ascii.eqb c "/") eqn:E; [|reflexivity].
  apply Ascii.eqb_eq in E. subst c. discriminate.
Qed.

Lemma sanitized_file_name (title : string) :
  is_file_name (sanitizeFileName title ++ ".md") = true.
Proof.
  unfold is_file_name. rewrite no_slash_append.
  rewrite (valid_no_slash _ (sanitizeFileName_valid title)).
  destruct (sanitizeFileName title); reflexivity.
Qed.

(** X5.  For titles whose sanitized form holds no dollar sign, the renamed
    file stays in the directory of the original, its name is the sanitized
    title with the extension, and a second run replaces that name only:
    renaming for a first and then a second title ends at the same path as
    renaming for the second title at once. *)
Theorem target_stays_in_directory (dir name title1 title2 : string) :
  is_dir_prefix dir = true ->
  is_file_name name = true ->
  no_dollar (sanitizeFileName title1) = true ->
  no_dollar (sanitizeFileName title2) = true ->
  exec_last_segment (target (dir ++ name) title1)
    = Some (dir, sanitizeFileName title1 ++ ".md") /\
  target (target (dir ++ name) title1) title2 = target (dir ++ name) title2.
Proof.
  intros Hd Hn H1 H2.
  rewrite (target_plain dir name title1 Hd Hn H1).
  split.
  - apply (exec_last_segment_split dir _ Hd (sanitized_file_name title1)).
  - rewrite (target_plain dir _ title2 Hd (sanitized_file_name title1) H2).
    now rewrite (target_plain dir name title2 Hd Hn H2).
Qed.

Lemma target_stays_in_directory_witness :
  exec_last_segment (target "notes/sub/a.md" "First: title")
    = Some ("notes/sub/", "First title.md") /\
  target (target "notes/sub/a.md" "First: title") "Second"
    = target "notes/sub/a.md" "Second".
Proof.
  apply (target_stays_in_directory "notes/sub/" "a.md"
           "First: title" "Second"); reflexivity.
Defined.

(** ** The provider calls *)

Lemma callAnthropicAPI_shape app settings text :
  callAnthropicAPI app settings text =
  provider_call app (url (anthropic_request settings text))
    (headers (anthropic_request settings text))
    (body (anthropic_request settings text))
    "Anthropic" anthropic_path "Error calling Anthropic API:".
Proof. reflexivity. Qed.

Lemma callOpenAIAPI_shape app settings text :
  callOpenAIAPI app settings text =
  provider_call app (url (openai_request settings text))
    (headers (openai_request settings text))
    (body (openai_request settings text))
    "OpenAI" openai_path "Error calling OpenAI API:".
Proof. reflexivity. Qed.

Lemma callGeminiAPI_shape app settings text :
  callGeminiAPI app settings text =
  provider_call app (url (gemini_request settings text))
    (headers (gemini_request settings text))
    (body (gemini_request settings text))
    "Gemini" gemini_path "Error calling Gemini API:".
Proof. reflexivity. Qed.

Lemma callProvider_shape app settings text :
  known_provider settings = true ->
  callProvider app settings text =
  provider_call app (url (provider_request settings text))
    (headers (provider_request settings text))
    (body (provider_request settings text))
    (provider_api_name settings) (provider_path settings)
    (provider_label settings).
Proof.
  unfold known_provider, callProvider, provider_request, provider_label,
    provider_path, provider_api_name.
  intros H.
  destruct (String.eqb (provider settings) ANTHROPIC); [reflexivity|].
  destruct (String.eqb (provider settings) OPENAI); [reflexivity|].
  destruct (String.eqb (provider settings) GEMINI); [reflexivity|].
  discriminate.
Qed.

(** The guard and the extraction have no effect on the world. *)
Lemma parse_response_pure name p data (w : World) :
  snd (parse_response name p data w) = w.
Proof.
  unfold parse_response, bind, lift, throw.
  destruct (any_falsy data (prefixes p)) as [e|[|]]; try reflexivity.
  destruct (access data p); reflexivity.
Qed.

Lemma makeAPIRequest_world app url headers body (w : World) :
  snd (makeAPIRequest app url headers body w) =
  log (ERequestUrl (post url headers body)) w.
Proof.
  unfold makeAPIRequest, bind, requestUrl, lift, throw, ret, post.
  destruct (host_requestUrl app _) as [e|r]; [reflexivity|].
  destruct (negb (status r =? 200)%Z); [|reflexivity].
  destruct (error_suffix (json r)); reflexivity.
Qed.

Lemma provider_call_world app url headers body name p label (w : World) :
  let r := provider_call app url headers body name p label w in
  editor_value (snd r) = editor_value w /\
  view_file (snd r) = view_file w /\
  events (snd r) =
    (events w ++ call_events (post url headers body) label (fst r))%list.
Proof.
  cbv zeta. unfold provider_call, try_catch, bind, console_error, throw.
  pose proof (makeAPIRequest_world app url headers body w) as Hw.
  destruct (makeAPIRequest app url headers body w) as [[e|resp] w1];
    cbn [snd] in Hw; subst w1.
  - cbn. rewrite <- app_assoc. auto.
  - pose proof (parse_response_pure name p (json resp)
                  (log (ERequestUrl (post url headers body)) w)) as Hp.
    destruct (parse_response name p (json resp) _) as [[e|t] w2];
      cbn [snd] in Hp; subst w2.
    + cbn. rewrite <- app_assoc. auto.
    + cbn. auto.
Qed.

(** X6.  Whatever the network answers, each provider call sends exactly
    one request, a POST to the endpoint of its provider carrying the key of
    that provider; it writes to the console exactly when it fails, and then
    the error it logs is the error it throws.  It leaves the view alone. *)
Theorem provider_calls_send_one_request app settings text (w : World) :
  let a := callAnthropicAPI app settings text w in
  let o := callOpenAIAPI app settings text w in
  let g := callGeminiAPI app settings text w in
  (view_file (snd a) = view_file w /\
   events (snd a) =
     (events w ++ call_events (anthropic_request settings text)
                    "Error calling Anthropic API:" (fst a))%list) /\
  (view_file (snd o) = view_file w /\
   events (snd o) =
     (events w ++ call_events (openai_request settings text)
                    "Error calling OpenAI API:" (fst o))%list) /\
  (view_file (snd g) = view_file w /\
   events (snd g) =
     (events w ++ call_events (gemini_request settings text)
                    "Error calling Gemini API:" (fst g))%list).
Proof.
  cbv zeta.
  rewrite callAnthropicAPI_shape, callOpenAIAPI_shape, callGeminiAPI_shape.
  repeat split; apply provider_call_world.
Qed.

Lemma parse_response_result name p data (w : World) :
  parse_response name p data w = (parse_result name p data, w).
Proof.
  unfold parse_response, parse_result, bind, lift, throw, format_error.
  destruct (any_falsy data (prefixes p)) as [e|[|]]; try reflexivity.
  destruct (access data p); reflexivity.
Qed.

Lemma provider_call_200 app url headers body name p label (w : World)
    (r : RequestUrlResponse) :
  host_requestUrl app (post url headers body) = inr r ->
  status r = 200%Z ->
  fst (provider_call app url headers body name p label w) =
  parse_result name p (json r).
Proof.
  intros Hr Hs. unfold provider_call, try_catch, bind at 1.
  rewrite (makeAPIRequest_200 app url headers body w r Hr Hs).
  rewrite parse_response_result.
  destruct (parse_result name p (json r)); reflexivity.
Qed.


Lemma provider_call_host_throws app url headers body name p label
    (w : World) (e : exn) :
  host_requestUrl app (post url headers body) = inl e ->
  fst (provider_call app url headers body name p label w) = inl e.
Proof.
  intros Hr. unfold provider_call, try_catch, bind at 1.
  unfold makeAPIRequest, bind, requestUrl. unfold post in Hr.
  rewrite Hr. reflexivity.
Qed.

Lemma parse_response_openai (ps qs ms : list (string * value))
    (more : list value) (s : string) (w : World) :
  assoc "choices" ps = Array (Object qs :: more) ->
  assoc "message" qs = Object ms ->
  assoc "content" ms = Str s ->
  is_empty s = false ->
  parse_response "OpenAI" openai_path (Object ps) w = (inr (trim s), w).
Proof.
  intros Hc Hm Ht Hs. unfold parse_response, bind, lift.
  cbn [openai_path prefixes map any_falsy access step get].
  rewrite Hc. unfold get_index. cbn [nth truthy get]. rewrite Hm.
  cbn [truthy get]. rewrite Ht. cbn [truthy]. rewrite Hs. reflexivity.
Qed.

Lemma parse_response_gemini (ps qs cs ts : list (string * value))
    (more more' : list value) (s : string) (w : World) :
  assoc "candidates" ps = Array (Object qs :: more) ->
  assoc "content" qs = Object cs ->
  assoc "parts" cs = Array (Object ts :: more') ->
  assoc "text" ts = Str s ->
  is_empty s = false ->
  parse_response "Gemini" gemini_path (Object ps) w = (inr (trim s), w).
Proof.
  intros Hc Hm Hp Ht Hs. unfold parse_response, bind, lift.
  cbn [gemini_path prefixes map any_falsy access step get].
  rewrite Hc. unfold get_index. cbn [nth truthy get]. rewrite Hm.
  cbn [truthy get]. rewrite Hp. cbn [nth truthy get]. rewrite Ht.
  cbn [truthy]. rewrite Hs. reflexivity.
Qed.

(** X7.  For a response with status 200 whose JSON has the OpenAI shape
    (choices is an array, its first element an object whose message is an
    object whose content is the non-empty string s), [callOpenAIAPI]
    returns s trimmed. *)
Theorem callOpenAIAPI_content_trimmed app settings (text : string)
    (w : World) (r : RequestUrlResponse) (ps qs ms : list (string * value))
    (more : list value) (s : string) :
  host_requestUrl app (openai_request settings text) = inr r ->
  status r = 200%Z ->
  json r = Object ps ->
  assoc "choices" ps = Array (Object qs :: more) ->
  assoc "message" qs = Object ms ->
  assoc "content" ms = Str s ->
  is_empty s = false ->
  fst (callOpenAIAPI app settings text w) = inr (trim s).
Proof.
  intros Hr Hs Hj Hc Hm Ht Hne. rewrite callOpenAIAPI_shape.
  rewrite (provider_call_200 app _ _ _ _ _ _ w r Hr Hs), Hj.
  pose proof (parse_response_openai ps qs ms more s w Hc Hm Ht Hne) as H.
  rewrite parse_response_result in H. now injection H.
Qed.

Lemma callOpenAIAPI_content_trimmed_witness :
  fst (callOpenAIAPI (answering (openai_ok "  A good title "))
         (with_provider OPENAI "k") "some text"
         (world0 "some text" (Some "notes/a.md")))
  = inr "A good title".
Proof.
  apply (callOpenAIAPI_content_trimmed
           (answering (openai_ok "  A good title "))
           (with_provider OPENAI "k") "some text"
           (world0 "some text" (Some "notes/a.md"))
           (openai_ok "  A good title ")
           [("choices",
             Array [Object [("message",
                             Object [("content", Str "  A good title ")])]])]
           [("message", Object [("content", Str "  A good title ")])]
           [("content", Str "  A good title ")] []
           "  A good title "); reflexivity.
Defined.

(** X8.  For a response with status 200 whose JSON has the Gemini shape
    (candidates is an array, its first element an object whose content is
    an object whose parts is an array, the first element of which is an
    object whose text is the non-empty string s), [callGeminiAPI] returns
    s trimmed. *)
Theorem callGeminiAPI_text_trimmed app settings (text : string)
    (w : World) (r : RequestUrlResponse)
    (ps qs cs ts : list (string * value)) (more more' : list value)
    (s : string) :
  host_requestUrl app (gemini_request settings text) = inr r ->
  status r = 200%Z ->
  json r = Object ps ->
  assoc "candidates" ps = Array (Object qs :: more) ->
  assoc "content" qs = Object cs ->
  assoc "parts" cs = Array (Object ts :: more') ->
  assoc "text" ts = Str s ->
  is_empty s = false ->
  fst (callGeminiAPI app settings text w) = inr (trim s).
Proof.
  intros Hr Hs Hj Hc Hm Hp Ht Hne. rewrite callGeminiAPI_shape.
  rewrite (provider_call_200 app _ _ _ _ _ _ w r Hr Hs), Hj.
  pose proof (parse_response_gemini ps qs cs ts more more' s w
                Hc Hm Hp Ht Hne) as H.
  rewrite parse_response_result in H. now injection H.
Qed.

Lemma callGeminiAPI_text_trimmed_witness :
  fst (callGeminiAPI (answering (gemini_ok " A good title "))
         (with_provider GEMINI "k") "some text"
         (world0 "some text" (Some "notes/a.md")))
  = inr "A good title".
Proof.
  apply (callGeminiAPI_text_trimmed
           (answering (gemini_ok " A good title "))
           (with_provider GEMINI "k") "some text"
           (world0 "some text" (Some "notes/a.md"))
           (gemini_ok " A good title ")
           [("candidates",
             Array [Object [("content",
                      Object [("parts",
                        Array [Object [("text", Str " A good title ")]])])]])]
           [("content",
             Object [("parts",
                      Array [Object [("text", Str " A good title ")]])])]
           [("parts", Array [Object [("text", Str " A good title ")]])]
           [("text", Str " A good title ")] [] []
           " A good title "); reflexivity.
Defined.

(** X9.  The guard tests the extracted text for truthiness, not for being
    a string: when the text of an Anthropic response is truthy but not a
    string (a number, true, an array, an object), the guard lets it through
    and the call fails on [trim] with a [TypeError], not with the format
    error. *)
Theorem callAnthropicAPI_text_not_a_string app settings (text : string)
    (w : World) (r : RequestUrlResponse) (ps qs : list (string * value))
    (more : list value) (v : value) :
  host_requestUrl app (anthropic_request settings text) = inr r ->
  status r = 200%Z ->
  json r = Object ps ->
  assoc "content" ps = Array (Object qs :: more) ->
  assoc "text" qs = v ->
  truthy v = true ->
  is_string v = false ->
  exists m, fst (callAnthropicAPI app settings text w) = inl (TypeError m).
Proof.
  intros Hr Hs Hj Hc Ht Hv Hn. rewrite callAnthropicAPI_shape.
  rewrite (provider_call_200 app _ _ _ _ _ _ w r Hr Hs), Hj.
  unfold parse_result.
  cbn [anthropic_path prefixes map any_falsy access step get].
  rewrite Hc. unfold get_index. cbn [nth truthy get]. rewrite Ht, Hv.
  destruct v; try discriminate; eexists; reflexivity.
Qed.

Lemma callAnthropicAPI_text_not_a_string_witness :
  exists m,
  fst (callAnthropicAPI
         (answering
            {| status := 200;
               json := Object [("content",
                                Array [Object [("text", Number 42)]])] |})
         (with_anthropic_key "k") "some text"
         (world0 "some text" (Some "notes/a.md")))
  = inl (TypeError m).
Proof.
  apply (callAnthropicAPI_text_not_a_string
           (answering
              {| status := 200;
                 json := Object [("content",
                                  Array [Object [("text", Number 42)]])] |})
           (with_anthropic_key "k") "some text"
           (world0 "some text" (Some "notes/a.md"))
           {| status := 200;
              json := Object [("content",
                               Array [Object [("text", Number 42)]])] |}
           [("content", Array [Object [("text", Number 42)]])]
           [("text", Number 42)] [] (Number 42)); reflexivity.
Defined.

(** ** The command, from start to end *)

Lemma world_eta (w : World) :
  w = {| editor_value := editor_value w;
         view_file := view_file w;
         events := events w |}.
Proof. now destruct w. Qed.

Lemma callProvider_world app settings text (w : World) :
  known_provider settings = true ->
  let r := callProvider app settings text w in
  snd r =
  {| editor_value := editor_value w;
     view_file := view_file w;
     events := events w ++
               call_events (provider_request settings text)
                 (provider_label settings) (fst r) |}.
Proof.
  intros Hk. cbv zeta. rewrite (callProvider_shape app settings text Hk).
  destruct (provider_call_world app
              (url (provider_request settings text))
              (headers (provider_request settings text))
              (body (provider_request settings text))
              (provider_api_name settings) (provider_path settings)
              (provider_label settings) w) as (E & F & V).
  rewrite (world_eta (snd _)). rewrite E, F, V.
  assert (Hp : post (url (provider_request settings text))
                 (headers (provider_request settings text))
                 (body (provider_request settings text))
               = provider_request settings text).
  { unfold provider_request, post.
    destruct (String.eqb (provider settings) ANTHROPIC); [reflexivity|].
    destruct (String.eqb (provider settings) OPENAI); reflexivity. }
  now rewrite Hp.
Qed.

Lemma generateTitle_run app settings (w : World) (path : string) :
  is_empty (getApiKey settings) = false ->
  view_file w = Some path ->
  known_provider settings = true ->
  let out := fst (callProvider app settings (editor_value w) (started w)) in
  generateTitle app settings w =
  (inr tt,
   {| editor_value := editor_value w;
      view_file := Some (path_after app path out);
      events := events w ++
                [EGetValue; ENotice "Generating title..."] ++
                call_events (provider_request settings (editor_value w))
                  (provider_label settings) out ++
                title_events app path out |}).
Proof.
  intros Hk Hf Hp. cbv zeta.
  pose proof (callProvider_world app settings (editor_value w) (started w)
                Hp) as Hw. cbv zeta in Hw.
  destruct (callProvider app settings (editor_value w) (started w))
    as [[e|title] w2] eqn:Hc; cbn [fst snd] in Hw; subst w2.
  - rewrite (generateTitle_provider_throws app settings w path Hk Hf e _ Hc).
    unfold failed, failure_events, started, log, title_events, path_after.
    cbn [events view_file editor_value fst]. rewrite Hf.
    rewrite <- !app_assoc. reflexivity.
  - cbn [fst]. destruct (is_empty title) eqn:Ht.
    + destruct title; [|discriminate].
      rewrite (generateTitle_empty_title app settings w path Hk Hf _ Hc).
      unfold started, log, title_events, path_after.
      cbn [events view_file editor_value is_empty]. rewrite Hf.
      rewrite <- !app_assoc. reflexivity.
    + rewrite (generateTitle_renames app settings w path Hk Hf title _
                 Hc Ht).
      unfold title_events, path_after. rewrite Ht.
      destruct (host_renameFile app path (target path title)) as [e|];
        unfold failed, failure_events, started, log, set_path;
        cbn [events view_file editor_value]; rewrite ?Hf;
        rewrite <- !app_assoc; reflexivity.
Qed.

(** X10.  The whole run, for a key that is set, an open file and a known
    provider: the command returns normally; the path of the file at the
    end and the effects, in order, are the read of the document, the
    progress notice, the one request of the provider call (with its
    console line when it fails), and then what the outcome calls for. *)
Theorem generateTitle_trace app settings (w : World) (path : string) :
  is_empty (getApiKey settings) = false ->
  view_file w = Some path ->
  known_provider settings = true ->
  let out := fst (callProvider app settings (editor_value w) (started w)) in
  generateTitle app settings w =
  (inr tt,
   {| editor_value := editor_value w;
      view_file := Some (path_after app path out);
      events := events w ++
                [EGetValue; ENotice "Generating title..."] ++
                call_events (provider_request settings (editor_value w))
                  (provider_label settings) out ++
                title_events app path out |}).
Proof. exact (generateTitle_run app settings w path). Qed.

Lemma unknown_provider_no_key (settings : AITitlePluginSettings) :
  known_provider settings = false -> getApiKey settings = EmptyString.
Proof.
  unfold known_provider, getApiKey. intros H.
  apply orb_false_iff in H. destruct H as [H H3].
  apply orb_false_iff in H. destruct H as [H1 H2].
  now rewrite H1, H2, H3.
Qed.

Lemma key_known_provider (settings : AITitlePluginSettings) :
  is_empty (getApiKey settings) = false -> known_provider settings = true.
Proof.
  intros H. destruct (known_provider settings) eqn:E; [reflexivity|].
  rewrite (unknown_provider_no_key settings E) in H. discriminate.
Qed.

Lemma post_provider_request (settings : AITitlePluginSettings)
    (text : string) :
  post (url (provider_request settings text))
       (headers (provider_request settings text))
       (body (provider_request settings text))
  = provider_request settings text.
Proof.
  unfold provider_request, post.
  destruct (String.eqb (provider settings) ANTHROPIC); [reflexivity|].
  destruct (String.eqb (provider settings) OPENAI); reflexivity.
Qed.

(** X11.  The command never throws: whatever the settings, the view, the
    answer of the network and the answer of the vault, it returns
    normally. *)
Theorem generateTitle_never_throws app settings (w : World) :
  fst (generateTitle app settings w) = inr tt.
Proof.
  destruct (is_empty (getApiKey settings)) eqn:Hk.
  { now rewrite (generateTitle_no_key app settings w Hk). }
  destruct (view_file w) as [path|] eqn:Hf.
  2:{ now rewrite (generateTitle_no_file app settings w Hk Hf). }
  now rewrite (generateTitle_run app settings w path Hk Hf
                 (key_known_provider settings Hk)).
Qed.

(** X12.  With a provider setting that is none of the three known ones the
    command behaves as without a key: it shows the key notice under the
    name AI Provider and does nothing else, so the error for an invalid
    provider in its switch is never raised. *)
Theorem generateTitle_unknown_provider app settings (w : World) :
  known_provider settings = false ->
  generateTitle app settings w =
  (inr tt,
   log (ENotice "Please set your AI Provider API key in the settings") w).
Proof.
  intros H.
  assert (Hk : is_empty (getApiKey settings) = true)
    by now rewrite (unknown_provider_no_key settings H).
  rewrite (generateTitle_no_key app settings w Hk).
  unfold key_notice, getProviderName, known_provider in *.
  apply orb_false_iff in H. destruct H as [H H3].
  apply orb_false_iff in H. destruct H as [H1 H2].
  now rewrite H1, H2, H3.
Qed.

Lemma generateTitle_unknown_provider_witness :
  generateTitle (answering (anthropic_ok "Foo bar"))
                (with_provider "mistral" "k")
                (world0 "some text" (Some "notes/a.md")) =
  (inr tt,
   log (ENotice "Please set your AI Provider API key in the settings")
       (world0 "some text" (Some "notes/a.md"))).
Proof.
  apply (generateTitle_unknown_provider (answering (anthropic_ok "Foo bar"))
           (with_provider "mistral" "k")
           (world0 "some text" (Some "notes/a.md"))).
  reflexivity.
Defined.

Lemma requests_app (a b : list event) :
  requests (a ++ b) = (requests a ++ requests b)%list.
Proof. apply flat_map_app. Qed.

Lemma requests_title_events app path outcome :
  requests (title_events app path outcome) = [].
Proof.
  unfold title_events, failure_events.
  destruct outcome as [e|title]; [reflexivity|].
  destruct (is_empty title); [reflexivity|].
  destruct (host_renameFile app path (target path title)); reflexivity.
Qed.

Lemma requests_call_events req label outcome :
  requests (call_events req label outcome) = [req].
Proof. destruct outcome; reflexivity. Qed.

(** X13.  No retry and no stray call: a run sends exactly one request, the
    request of the configured provider built from the text of the
    document, when a key is set and a file is open; in every other case it
    sends none. *)
Theorem generateTitle_requests app settings (w : World) :
  exists evs,
    events (snd (generateTitle app settings w)) = (events w ++ evs)%list /\
    requests evs =
      if is_empty (getApiKey settings) then []
      else match view_file w with
           | None => []
           | Some _ => [provider_request settings (editor_value w)]
           end.
Proof.
  destruct (is_empty (getApiKey settings)) eqn:Hk.
  { rewrite (generateTitle_no_key app settings w Hk).
    now exists [ENotice (key_notice settings)]. }
  destruct (view_file w) as [path|] eqn:Hf.
  2:{ rewrite (generateTitle_no_file app settings w Hk Hf).
      exists [EGetValue; ENotice "No file is currently open"].
      split; [|reflexivity]. cbn [snd log events].
      now rewrite <- app_assoc. }
  rewrite (generateTitle_run app settings w path Hk Hf
             (key_known_provider settings Hk)).
  eexists. split; [reflexivity|].
  rewrite !requests_app, requests_call_events, requests_title_events.
  reflexivity.
Qed.


Lemma callProvider_200 app settings text (w : World)
    (r : RequestUrlResponse) :
  known_provider settings = true ->
  host_requestUrl app (provider_request settings text) = inr r ->
  status r = 200%Z ->
  fst (callProvider app settings text w) =
  parse_result (provider_api_name settings) (provider_path settings)
    (json r).
Proof.
  intros Hk Hr Hs. rewrite (callProvider_shape app settings text Hk).
  apply (provider_call_200 app _ _ _ _ _ _ w r); [|exact Hs].
  now rewrite post_provider_request.
Qed.



(** The two cases of X14 on concrete responses. *)
Example http_failure_rate_limited :
  fst (callProvider (answering rate_limited) (with_provider GEMINI "k")
         "some text" (world0 "some text" (Some "notes/a.md")))
  = inl (Error "API request failed with status 429: rate limited").
Proof. reflexivity. Qed.

Example http_failure_unprintable :
  fst (callProvider (answering unprintable) (with_provider GEMINI "k")
         "some text" (world0 "some text" (Some "notes/a.md")))
  = inl cannot_convert.
Proof. reflexivity. Qed.

Lemma parse_result_missing_segment (name : string) (p q : list accessor)
    (data : value) :
  nullish data = false ->
  In q (prefixes p) ->
  (forall v, access data q = inr v -> truthy v = false) ->
  parse_result name p data = inl (format_error name).
Proof.
  intros Hd Hq Hm.
  pose proof (parse_response_missing_segment name p q data
                (world0 EmptyString None) Hd Hq Hm) as H.
  rewrite parse_response_result in H. now injection H.
Qed.

(** X15.  In the current revision, for each of the three providers: when
    the answer has status 200, is not null, and the value at some step of
    the extraction path of the configured provider is absent or falsy, the
    user is told of the unexpected response format of that provider,
    nothing is renamed and the path of the file is unchanged. *)
Theorem generateTitle_missing_segment app settings (w : World)
    (path : string) (r : RequestUrlResponse) (q : list accessor) :
  is_empty (getApiKey settings) = false ->
  view_file w = Some path ->
  host_requestUrl app (provider_request settings (editor_value w))
    = inr r ->
  status r = 200%Z ->
  nullish (json r) = false ->
  In q (prefixes (provider_path settings)) ->
  (forall v, access (json r) q = inr v -> truthy v = false) ->
  let e := format_error (provider_api_name settings) in
  view_file (snd (generateTitle app settings w)) = Some path /\
  events (snd (generateTitle app settings w)) =
    (events w ++
     [EGetValue; ENotice "Generating title...";
      ERequestUrl (provider_request settings (editor_value w));
      EConsoleError (provider_label settings) e;
      EConsoleError "Error generating title:" e;
      ENotice ("Failed to generate title: Unexpected response format from "
               ++ provider_api_name settings ++ " API")])%list.
Proof.
  intros Hk Hf Hr Hs Hn Hq Hm. cbv zeta.
  pose proof (key_known_provider settings Hk) as Hp.
  pose proof (callProvider_200 app settings (editor_value w) (started w)
                r Hp Hr Hs) as Hc.
  rewrite (parse_result_missing_segment _ _ q _ Hn Hq Hm) in Hc.
  rewrite (generateTitle_run app settings w path Hk Hf Hp), Hc.
  split; reflexivity.
Qed.

Lemma generateTitle_missing_segment_witness :
  let w := world0 "some text" (Some "notes/a.md") in
  let settings := with_provider OPENAI "k" in
  let app := answering {| status := 200;
                          json := Object [("choices", Array [])] |} in
  view_file (snd (generateTitle app settings w)) = Some "notes/a.md" /\
  events (snd (generateTitle app settings w)) =
    [EGetValue; ENotice "Generating title...";
     ERequestUrl (provider_request settings "some text");
     EConsoleError "Error calling OpenAI API:" (format_error "OpenAI");
     EConsoleError "Error generating title:" (format_error "OpenAI");
     ENotice
       "Failed to generate title: Unexpected response format from OpenAI API"].
Proof.
  cbv zeta.
  apply (generateTitle_missing_segment
           (answering {| status := 200;
                         json := Object [("choices", Array [])] |})
           (with_provider OPENAI "k")
           (world0 "some text" (Some "notes/a.md")) "notes/a.md"
           {| status := 200; json := Object [("choices", Array [])] |}
           [Field "choices"; Index 0]).
  - reflexivity.
  - reflexivity.
  - reflexivity.
  - reflexivity.
  - reflexivity.
  - simpl. tauto.
  - intros v H. injection H as <-. reflexivity.
Defined.

(** X16.  When the provider call returns a non-empty title whose sanitized
    form holds no dollar sign and the vault accepts the rename, the file
    ends at its directory followed by the sanitized title and the
    extension, and the rename request and the success notice are the last
    two effects. *)
Theorem generateTitle_success app settings (w : World)
    (dir name title : string) :
  is_empty (getApiKey settings) = false ->
  view_file w = Some (dir ++ name) ->
  is_dir_prefix dir = true ->
  is_file_name name = true ->
  fst (callProvider app settings (editor_value w) (started w))
    = inr title ->
  is_empty title = false ->
  no_dollar (sanitizeFileName title) = true ->
  host_renameFile app (dir ++ name) (dir ++ sanitizeFileName title ++ ".md")
    = None ->
  let w' := snd (generateTitle app settings w) in
  view_file w' = Some (dir ++ sanitizeFileName title ++ ".md") /\
  events w' =
    (events w ++
     [EGetValue; ENotice "Generating title...";
      ERequestUrl (provider_request settings (editor_value w));
      ERenameFile (dir ++ name) (dir ++ sanitizeFileName title ++ ".md");
      ENotice "Title updated successfully"])%list.
Proof.
  intros Hk Hf Hd Hn Hc Ht H1 Hv. cbv zeta.
  rewrite (generateTitle_run app settings w (dir ++ name) Hk Hf
             (key_known_provider settings Hk)), Hc.
  unfold path_after, title_events, call_events.
  rewrite Ht, (target_plain dir name title Hd Hn H1), Hv.
  split; reflexivity.
Qed.

Lemma generateTitle_success_witness :
  let w := world0 "some text" (Some "notes/a.md") in
  let settings := with_anthropic_key "k" in
  let w' := snd (generateTitle (answering (anthropic_ok " What: a title? "))
                               settings w) in
  view_file w' = Some "notes/What a title.md" /\
  events w' =
    [EGetValue; ENotice "Generating title...";
     ERequestUrl (provider_request settings "some text");
     ERenameFile "notes/a.md" "notes/What a title.md";
     ENotice "Title updated successfully"].
Proof.
  cbv zeta.
  apply (generateTitle_success
           (answering (anthropic_ok " What: a title? "))
           (with_anthropic_key "k")
           (world0 "some text" (Some "notes/a.md"))
           "notes/" "a.md" "What: a title?"); reflexivity.
Defined.

(** X17.  When the vault refuses the rename, the rename has been requested
    once, the path of the file is unchanged, and the user is told: the
    last effect is the failure notice carrying the message of the vault's
    error. *)
Theorem generateTitle_rename_refused app settings (w : World)
    (path title : string) (e : exn) :
  is_empty (getApiKey settings) = false ->
  view_file w = Some path ->
  fst (callProvider app settings (editor_value w) (started w))
    = inr title ->
  is_empty title = false ->
  host_renameFile app path (target path title) = Some e ->
  let w' := snd (generateTitle app settings w) in
  view_file w' = Some path /\
  events w' =
    (events w ++
     [EGetValue; ENotice "Generating title...";
      ERequestUrl (provider_request settings (editor_value w));
      ERenameFile path (target path title);
      EConsoleError "Error generating title:" e;
      ENotice ("Failed to generate title: " ++ error_message e)])%list.
Proof.
  intros Hk Hf Hc Ht Hv. cbv zeta.
  rewrite (generateTitle_run app settings w path Hk Hf
             (key_known_provider settings Hk)), Hc.
  unfold path_after, title_events, call_events, failure_events.
  rewrite Ht, Hv. split; reflexivity.
Qed.

Lemma generateTitle_rename_refused_witness :
  let w := world0 "some text" (Some "notes/a.md") in
  let settings := with_anthropic_key "k" in
  let app := refusing (anthropic_ok "Taken")
                      (Error "Destination file already exists!") in
  view_file (snd (generateTitle app settings w)) = Some "notes/a.md" /\
  events (snd (generateTitle app settings w)) =
    [EGetValue; ENotice "Generating title...";
     ERequestUrl (provider_request settings "some text");
     ERenameFile "notes/a.md" "notes/Taken.md";
     EConsoleError "Error generating title:"
       (Error "Destination file already exists!");
     ENotice "Failed to generate title: Destination file already exists!"].
Proof.
  cbv zeta.
  apply (generateTitle_rename_refused
           (refusing (anthropic_ok "Taken")
                     (Error "Destination file already exists!"))
           (with_anthropic_key "k")
           (world0 "some text" (Some "notes/a.md"))
           "notes/a.md" "Taken"
           (Error "Destination file already exists!")); reflexivity.
Defined.

(** X18.  A title of white space only is dropped without a word: when the
    text of a well-formed Anthropic response is not empty but made of
    white space, the provider call returns the empty string and the
    command stops after the request, with no rename, no success notice and
    no failure notice. *)
Theorem generateTitle_blank_answer app settings (w : World) (path : string)
    (r : RequestUrlResponse) (ps qs : list (string * value))
    (more : list value) (s : string) :
  provider settings = ANTHROPIC ->
  is_empty (anthropicApiKey settings) = false ->
  view_file w = Some path ->
  host_requestUrl app (anthropic_request settings (editor_value w))
    = inr r ->
  status r = 200%Z ->
  json r = Object ps ->
  assoc "content" ps = Array (Object qs :: more) ->
  assoc "text" qs = Str s ->
  is_empty s = false ->
  all_chars is_white_space s = true ->
  let w' := snd (generateTitle app settings w) in
  view_file w' = Some path /\
  events w' =
    (events w ++
     [EGetValue; ENotice "Generating title...";
      ERequestUrl (anthropic_request settings (editor_value w))])%list.
Proof.
  intros Hp Hk Hf Hr Hs Hj Hc Ht Hne Hws. cbv zeta.
  assert (Hkey : is_empty (getApiKey settings) = false).
  { unfold getApiKey. now rewrite Hp. }
  assert (Hreq : provider_request settings (editor_value w)
                 = anthropic_request settings (editor_value w)).
  { unfold provider_request. now rewrite Hp. }
  pose proof (key_known_provider settings Hkey) as Hkn.
  assert (Hout : fst (callProvider app settings (editor_value w) (started w))
                 = inr EmptyString).
  { rewrite (callProvider_200 app settings _ _ r Hkn); [|now rewrite Hreq|exact Hs].
    unfold provider_api_name, provider_path. rewrite Hp. cbn [String.eqb].
    pose proof (parse_response_anthropic ps qs more s w Hc Ht Hne) as H.
    rewrite parse_response_result, <- Hj in H.
    change (if (ANTHROPIC =? ANTHROPIC)%string then "Anthropic" else _)
      with "Anthropic".
    change (if (ANTHROPIC =? ANTHROPIC)%string then anthropic_path else _)
      with anthropic_path.
    injection H as ->. now rewrite (trim_white_space s Hws). }
  rewrite (generateTitle_run app settings w path Hkey Hf Hkn), Hout, Hreq.
  split; reflexivity.
Qed.

Lemma generateTitle_blank_answer_witness :
  let w := world0 "some text" (Some "notes/a.md") in
  let settings := with_anthropic_key "k" in
  let w' := snd (generateTitle (answering (anthropic_ok "   ")) settings w) in
  view_file w' = Some "notes/a.md" /\
  events w' =
    [EGetValue; ENotice "Generating title...";
     ERequestUrl (anthropic_request settings "some text")].
Proof.
  cbv zeta.
  apply (generateTitle_blank_answer (answering (anthropic_ok "   "))
           (with_anthropic_key "k")
           (world0 "some text" (Some "notes/a.md")) "notes/a.md"
           (anthropic_ok "   ")
           [("content", Array [Object [("text", Str "   ")]])]
           [("text", Str "   ")] [] "   "); reflexivity.
Defined.

(** ** The prompt *)

Lemma all_chars_impl (p q : ascii -> bool) (s : string) :
  (forall c, p c = true -> q c = true) ->
  all_chars p s = true -> all_chars q s = true.
Proof.
  intros Hpq. induction s as [|c r IH]; [reflexivity|].
  cbn [all_chars]. intros H. apply andb_true_iff in H.
  destruct H as [Hc Hr]. now rewrite (Hpq c Hc), (IH Hr).
Qed.

Lemma string_of_uint_digits (d : Decimal.uint) :
  all_chars is_digit (NilEmpty.string_of_uint d) = true.
Proof. induction d; simpl; auto. Qed.

Lemma digit_not_dollar (c : ascii) :
  is_digit_or_minus c = true -> negb (Ascii.eqb c dollar) = true.
Proof.
  intros H. destruct (Ascii.eqb c dollar) eqn:E; [|reflexivity].
  apply Ascii.eqb_eq in E. subst c. discriminate.
Qed.

Lemma string_of_uint_chars (d : Decimal.uint) :
  all_chars is_digit_or_minus (NilZero.string_of_uint d) = true.
Proof.
  unfold NilZero.string_of_uint.
  assert (H : all_chars is_digit_or_minus (NilEmpty.string_of_uint d)
              = true).
  { apply (all_chars_impl is_digit); [|apply string_of_uint_digits].
    intros c Hc. unfold is_digit_or_minus. now rewrite Hc. }
  destruct d; first [exact H | reflexivity].
Qed.

Lemma decimal_no_dollar (n : Z) : no_dollar (decimal n) = true.
Proof.
  unfold no_dollar, decimal.
  apply (all_chars_impl is_digit_or_minus);
    [apply digit_not_dollar | apply string_of_uint_chars].
Qed.

Lemma zeros_no_dollar (n : nat) : no_dollar (zeros n) = true.
Proof. induction n as [|m IH]; [reflexivity | exact IH]. Qed.

Lemma no_dollar_append (a b : string) :
  no_dollar a = true -> no_dollar b = true -> no_dollar (a ++ b) = true.
Proof.
  unfold no_dollar. intros Ha Hb. now rewrite all_chars_append, Ha, Hb.
Qed.

Lemma large_toString_no_dollar (x : Z) : no_dollar (large_toString x) = true.
Proof.
  unfold large_toString.
  destruct (2 ^ 1024 <=? x)%Z; [reflexivity|].
  destruct (shortest 17 x 1) as [[s k] n].
  destruct (n <=? 21)%Z.
  - apply no_dollar_append; [apply decimal_no_dollar | apply zeros_no_dollar].
  - pose proof (decimal_no_dollar s) as Hs.
    destruct (decimal s) as [|c rest]; [reflexivity|].
    unfold no_dollar in Hs. cbn [all_chars] in Hs.
    apply andb_true_iff in Hs. destruct Hs as [Hc Hrest].
    apply no_dollar_append.
    + unfold no_dollar. cbn [all_chars]. rewrite Hc. cbn [andb].
      destruct (k =? 1)%Z; [reflexivity|].
      apply (no_dollar_append "." rest); [reflexivity | exact Hrest].
    + apply (no_dollar_append "e+"); [reflexivity | apply decimal_no_dollar].
Qed.

(** The rendering of a number holds no dollar sign. *)
Lemma number_toString_no_dollar (z : Z) :
  no_dollar (number_toString z) = true.
Proof.
  unfold number_toString. destruct (Z.abs z <? 2 ^ 53)%Z.
  - unfold no_dollar, NilZero.string_of_int.
    apply (all_chars_impl is_digit_or_minus); [apply digit_not_dollar|].
    destruct (Z.to_int z) as [d|d]; [apply string_of_uint_chars|].
    cbn [all_chars]. now rewrite string_of_uint_chars.
  - apply no_dollar_append; [|apply large_toString_no_dollar].
    destruct (z <? 0)%Z; reflexivity.
Qed.

Lemma prefix_length (p s : string) :
  prefix p s = true -> String.length p <= String.length s.
Proof.
  revert s. induction p as [|x p' IH]; intros s H; [apply Nat.le_0_l|].
  destruct s as [|y s']; [discriminate|]. simpl in *.
  destruct (ascii_dec x y) as [_|_]; [|discriminate].
  apply le_n_S. now apply IH.
Qed.

Lemma prefix_shorter (p s t : string) :
  prefix p (s ++ t) = true -> String.length p <= String.length s ->
  prefix p s = true.
Proof.
  revert s. induction p as [|x p' IH]; intros s H L; [now destruct s|].
  destruct s as [|y s']; [simpl in L; lia|]. simpl in *.
  destruct (ascii_dec x y) as [_|_]; [|discriminate].
  apply IH; [exact H | lia].
Qed.

Lemma prefix_split (p s : string) :
  prefix p s = true -> exists b, s = p ++ b.
Proof.
  revert s. induction p as [|x p' IH]; intros s H; [now exists s|].
  destruct s as [|y s']; [discriminate|]. simpl in H.
  destruct (ascii_dec x y) as [->|_]; [|discriminate].
  destruct (IH s' H) as [b ->]. now exists b.
Qed.

Lemma includes_shorter (s pat : string) :
  String.length s < String.length pat -> includes s pat = false.
Proof.
  induction s as [|x r IH]; intros L.
  - cbn [includes]. rewrite orb_false_r.
    destruct (prefix pat EmptyString) eqn:P; [|reflexivity].
    apply prefix_length in P. lia.
  - cbn [includes]. apply orb_false_iff. split.
    + destruct (prefix pat (String x r)) eqn:P; [|reflexivity].
      apply prefix_length in P. lia.
    + apply IH. simpl in L. lia.
Qed.

Lemma indexOf_prefix (s pat : string) :
  prefix pat s = true -> indexOf s pat = Some 0.
Proof. intros H. destruct s; cbn [indexOf]; now rewrite H. Qed.

Lemma append_assoc (a b c : string) : (a ++ b) ++ c = a ++ (b ++ c).
Proof. induction a as [|x r IH]; simpl; [reflexivity | now rewrite IH]. Qed.

Lemma length_append (a b : string) :
  String.length (a ++ b) = String.length a + String.length b.
Proof. induction a as [|x r IH]; simpl; [reflexivity | now rewrite IH]. Qed.

(** The pattern is found where it stands when it does not begin before. *)
Lemma indexOf_first (a b p : string) (c : ascii) :
  includes (a ++ p) (p ++ String c EmptyString) = false ->
  indexOf (a ++ (p ++ String c EmptyString) ++ b) (p ++ String c EmptyString)
  = Some (String.length a).
Proof.
  set (pat := p ++ String c EmptyString).
  induction a as [|x a' IH]; intros H.
  - apply indexOf_prefix. exact (prefix_append pat b).
  - cbn [append includes] in H. apply orb_false_iff in H.
    destruct H as [Hp Hi].
    change ((String x a') ++ pat ++ b) with (String x (a' ++ pat ++ b)).
    cbn [indexOf String.length].
    destruct (prefix pat (String x (a' ++ pat ++ b))) eqn:P.
    + exfalso.
      assert (E : String x (a' ++ pat ++ b)
                  = String x (a' ++ p) ++ (String c EmptyString ++ b)).
      { unfold pat. cbn [append]. now rewrite !append_assoc. }
      rewrite E in P. apply prefix_shorter in P; [congruence|].
      unfold pat. cbn [String.length]. rewrite !length_append.
      cbn [String.length]. lia.
    + now rewrite (IH Hi).
Qed.

(** A string that includes the pattern holds a first occurrence of it. *)
Lemma includes_first (s p : string) (c : ascii) :
  includes s (p ++ String c EmptyString) = true ->
  exists a b,
    s = a ++ (p ++ String c EmptyString) ++ b /\
    includes (a ++ p) (p ++ String c EmptyString) = false.
Proof.
  set (pat := p ++ String c EmptyString).
  induction s as [|x r IH]; intros H.
  - rewrite includes_shorter in H; [discriminate|].
    unfold pat. rewrite length_append. cbn [String.length]. lia.
  - cbn [includes] in H. destruct (prefix pat (String x r)) eqn:P.
    + destruct (prefix_split _ _ P) as [b E].
      exists EmptyString, b. split; [exact E|].
      apply includes_shorter. unfold pat. rewrite !length_append.
      cbn [String.length]. lia.
    + cbn [orb] in H. destruct (IH H) as [a [b [E N]]].
      exists (String x a), b. split; [cbn [append]; now rewrite E|].
      cbn [append includes]. rewrite N, orb_false_r.
      destruct (prefix pat (String x (a ++ p))) eqn:Q; [|reflexivity].
      apply (prefix_append_r _ _ (String c EmptyString ++ b)) in Q.
      assert (E' : String x (a ++ p) ++ String c EmptyString ++ b
                   = String x r).
      { rewrite E. unfold pat. cbn [append]. now rewrite !append_assoc. }
      rewrite E' in Q. congruence.
Qed.

Lemma indexOf_absent (s pat : string) :
  includes s pat = false -> indexOf s pat = None.
Proof.
  induction s as [|x r IH]; cbn [includes indexOf]; intros H;
    apply orb_false_iff in H; destruct H as [Hp Hr]; rewrite Hp;
    [reflexivity|].
  now rewrite (IH Hr).
Qed.

Lemma substring_all (s : string) : substring 0 (String.length s) s = s.
Proof. induction s as [|x r IH]; simpl; [reflexivity | now rewrite IH]. Qed.

Lemma substring_head (a t : string) :
  substring 0 (String.length a) (a ++ t) = a.
Proof.
  induction a as [|x r IH]; simpl; [now destruct t | now rewrite IH].
Qed.

Lemma substring_skip (a t : string) (m : nat) :
  substring (String.length a) m (a ++ t) = substring 0 m t.
Proof. induction a as [|x r IH]; simpl; [reflexivity | exact IH]. Qed.

(** Replacing the first occurrence by a text free of dollar signs. *)
Lemma replace_first (a b pat repl : string) :
  indexOf (a ++ pat ++ b) pat = Some (String.length a) ->
  no_dollar repl = true ->
  replace (a ++ pat ++ b) pat repl = a ++ repl ++ b.
Proof.
  intros Hi Hr. unfold replace. rewrite Hi.
  rewrite (getSubstitution_no_dollar _ _ _ repl Hr).
  rewrite substring_head. f_equal. f_equal.
  rewrite <- (append_assoc a pat b).
  rewrite <- (length_append a pat), substring_skip.
  rewrite (length_append (a ++ pat) b).
  replace (String.length (a ++ pat) + String.length b
           - String.length (a ++ pat))
    with (String.length b) by lia.
  apply substring_all.
Qed.

(** X19.  The prompt sent to the provider is the prompt template of the
    settings with the first occurrence of the placeholder replaced by the
    rendering of the maximal title length as the language prints a number:
    a template without the placeholder is sent as it is; a template with
    the placeholder splits at the first one, the one before which no
    other begins; and what stands before and after the first placeholder
    is sent as it is, braces and later placeholders included. *)
Theorem prompt_substitution (settings : AITitlePluginSettings) :
  (includes (customPrompt settings) placeholder = false ->
   prompt settings = customPrompt settings) /\
  (includes (customPrompt settings) placeholder = true ->
   exists a b,
     customPrompt settings = a ++ placeholder ++ b /\
     begins_within a placeholder = false) /\
  (forall a b,
     customPrompt settings = a ++ placeholder ++ b ->
     begins_within a placeholder = false ->
     prompt settings = a ++ number_toString (maxTitleLength settings) ++ b).
Proof.
  unfold prompt, begins_within, placeholder. split; [|split].
  - intros H. unfold replace.
    now rewrite (indexOf_absent _ _ H).
  - exact (includes_first (customPrompt settings) "{maxTitleLength" "}").
  - intros a b E Ha. rewrite E. apply replace_first.
    + exact (indexOf_first a b "{maxTitleLength" "}" Ha).
    + apply number_toString_no_dollar.
Qed.

Lemma prompt_substitution_witness :
  prompt DEFAULT_SETTINGS =
  "You create concise summaries. Your summaries must:" ++ nl ++
  "- Be exactly one sentence" ++ nl ++
  "- Never exceed 110 characters" ++ nl ++
  "- Avoid names, emojis, links, and colons" ++ nl ++
  "- Focus on behaviors and impact" ++ nl ++
  "- Return only the summary text, nothing else" /\
  prompt (with_prompt "Use {x} and {maxTitleLength}, {maxTitleLength}"
                      (10 ^ 21))
  = "Use {x} and 1e+21, {maxTitleLength}" /\
  prompt (with_prompt "{maxTitleLength{maxTitleLength}}" 2)
  = "{maxTitleLength2}".
Proof.
  split; [|split].
  - apply (proj2 (proj2 (prompt_substitution DEFAULT_SETTINGS))
             ("You create concise summaries. Your summaries must:" ++
              nl ++ "- Be exactly one sentence" ++ nl ++
              "- Never exceed ")
             (" characters" ++ nl ++
              "- Avoid names, emojis, links, and colons" ++ nl ++
              "- Focus on behaviors and impact" ++ nl ++
              "- Return only the summary text, nothing else"));
      reflexivity.
  - apply (proj2 (proj2 (prompt_substitution
                           (with_prompt
                              "Use {x} and {maxTitleLength}, {maxTitleLength}"
                              (10 ^ 21))))
             "Use {x} and " ", {maxTitleLength}"); reflexivity.
  - apply (proj2 (proj2 (prompt_substitution
                           (with_prompt "{maxTitleLength{maxTitleLength}}"
                                        2)))
             "{maxTitleLength" "}"); reflexivity.
Defined.

(** ** Stored settings *)

Lemma assoc_absent (k : string) (ps : list (string * value)) :
  has_key k ps = false -> assoc k ps = Undefined.
Proof.
  induction ps as [|[k' v] r IH]; [reflexivity|].
  cbn [assoc has_key existsb fst].
  destruct (String.eqb k k'); [discriminate | exact IH].
Qed.

Lemma mem_in (k : string) (l : list string) :
  existsb (String.eqb k) l = true <-> In k l.
Proof.
  rewrite existsb_exists. split.
  - intros [x [Hx E]]. apply String.eqb_eq in E. now subst x.
  - intros H. exists k. split; [exact H | apply String.eqb_refl].
Qed.

Lemma mem_absent (k : string) (l : list string) :
  ~ In k l -> existsb (String.eqb k) l = false.
Proof.
  intros H. destruct (existsb (String.eqb k) l) eqn:E; [|reflexivity].
  now apply mem_in in E.
Qed.

Lemma first_keys_in (k : string) (ps : list (string * value)) :
  In k (first_keys ps) <-> has_key k ps = true.
Proof.
  induction ps as [|[k' v] r IH]; [split; [intros [] | discriminate]|].
  cbn [first_keys has_key existsb fst In]. rewrite filter_In, IH.
  fold (has_key k r). destruct (String.eqb k k') eqn:E.
  - apply String.eqb_eq in E. subst k'. split; [reflexivity | now left].
  - cbn [orb negb]. split.
    + intros [->|[H _]]; [now rewrite String.eqb_refl in E | exact H].
    + intros H. right. now split.
Qed.

Lemma first_keys_nodup (ps : list (string * value)) : NoDup (first_keys ps).
Proof.
  induction ps as [|[k v] r IH]; [constructor|].
  cbn [first_keys]. constructor.
  - rewrite filter_In, String.eqb_refl. now intros [_ H].
  - now apply NoDup_filter.
Qed.

Lemma insert_index_perm (n : Z) (k : string) (l : list (Z * string)) :
  Permutation (insert_index n k l) ((n, k) :: l).
Proof.
  induction l as [|[m j] r IH]; [apply Permutation_refl|].
  cbn [insert_index]. destruct (n <? m)%Z; [apply Permutation_refl|].
  apply (perm_trans (perm_skip (m, j) IH)). apply perm_swap.
Qed.

(** The language's order of the keys is an order of the same keys. *)
Lemma ordered_perm (ks : list string) :
  Permutation
    (map snd (index_keys ks)
     ++ filter (fun k => negb (is_array_index k)) ks)%list ks.
Proof.
  induction ks as [|k r IH]; [constructor|].
  cbn [index_keys filter]. unfold is_array_index at 1.
  destruct (array_index k) as [n|]; cbn [negb].
  - apply (perm_trans
             (Permutation_app_tail _
                (Permutation_map snd (insert_index_perm n k _)))).
    cbn [map snd app]. now apply perm_skip.
  - apply Permutation_sym.
    apply (perm_trans (perm_skip k (Permutation_sym IH))).
    apply Permutation_middle.
Qed.

Lemma own_keys_nodup (ps : list (string * value)) : NoDup (own_keys ps).
Proof.
  apply (Permutation_NoDup (Permutation_sym (ordered_perm (first_keys ps)))).
  apply first_keys_nodup.
Qed.

Lemma own_keys_mem (k : string) (ps : list (string * value)) :
  existsb (String.eqb k) (own_keys ps) = has_key k ps.
Proof.
  destruct (has_key k ps) eqn:H.
  - apply mem_in.
    apply (Permutation_in _ (Permutation_sym (ordered_perm (first_keys ps)))).
    now apply first_keys_in.
  - apply mem_absent. intros I.
    apply (Permutation_in _ (ordered_perm (first_keys ps))) in I.
    apply first_keys_in in I. congruence.
Qed.

(** Assigning keys other than [__proto__], in any order: the prototype
    stays and each key gets the value the source has for it. *)
Lemma assign_plain_keys (props : list (string * value)) (ks : list string) :
  ~ In proto_key ks ->
  forall o,
    object_prototype
      (fold_left (fun o k => set_property k (assoc k props) o) ks o)
    = object_prototype o /\
    forall k,
      own_property
        (fold_left (fun o k => set_property k (assoc k props) o) ks o) k
      = if existsb (String.eqb k) ks then Some (assoc k props)
        else own_property o k.
Proof.
  induction ks as [|k0 r IH]; intros N o; [now split|].
  assert (E0 : String.eqb k0 proto_key = false).
  { apply String.eqb_neq. intros ->. apply N. now left. }
  assert (Nr : ~ In proto_key r) by (intros I; apply N; now right).
  cbn [fold_left]. unfold set_property at 2 4. rewrite E0. cbn [andb].
  destruct (IH Nr (define_own k0 (assoc k0 props) o)) as [P Q].
  split; [exact P|]. intros k. rewrite Q. cbn [existsb define_own own_property].
  destruct (String.eqb k k0) eqn:E; cbn [orb].
  - apply String.eqb_eq in E. subst k0.
    now destruct (existsb (String.eqb k) r).
  - reflexivity.
Qed.

(** [Object.assign] on a target that has no own [__proto__] and reaches
    the setter: every key of the source but [__proto__] becomes an own
    property with the value of the source, the other own properties stay,
    and a [__proto__] of the source sets the prototype. *)
Lemma object_assign_outcome (target : object) (source : value) :
  own_property target proto_key = None ->
  has_proto_setter (object_prototype target) = true ->
  (forall k,
     own_property (object_assign target source) k =
     if String.eqb k proto_key then None
     else if has_key k (own_props source)
          then Some (assoc k (own_props source))
          else own_property target k) /\
  object_prototype (object_assign target source) =
  match assoc proto_key (own_props source) with
  | Null => Replaced Null
  | Object ps => Replaced (Object ps)
  | Array l => Replaced (Array l)
  | _ => object_prototype target
  end.
Proof.
  intros Hown Hset. unfold object_assign.
  set (props := own_props source).
  pose proof (own_keys_nodup props) as ND.
  pose proof (fun k => own_keys_mem k props) as M.
  set (ks := own_keys props) in *.
  destruct (in_dec string_dec proto_key ks) as [I|N].
  - destruct (in_split _ _ I) as [l1 [l2 E]]. rewrite E in ND, M |- *.
    apply NoDup_remove_2 in ND.
    assert (N1 : ~ In proto_key l1)
      by (intros H; apply ND, in_or_app; now left).
    assert (N2 : ~ In proto_key l2)
      by (intros H; apply ND, in_or_app; now right).
    rewrite fold_left_app. cbn [fold_left].
    set (f := fun o k => set_property k (assoc k props) o).
    destruct (assign_plain_keys props l1 N1 target) as [P1 Q1].
    fold f in P1, Q1. set (o1 := fold_left f l1 target) in *.
    assert (S1 : set_property proto_key (assoc proto_key props) o1
                 = set_prototype (assoc proto_key props) o1).
    { unfold set_property. rewrite String.eqb_refl, Q1, P1, Hset.
      now rewrite (mem_absent _ _ N1), Hown. }
    change (f o1 proto_key)
      with (set_property proto_key (assoc proto_key props) o1).
    rewrite S1. set (o2 := set_prototype (assoc proto_key props) o1).
    assert (P2 : own_property o2 = own_property o1)
      by (unfold o2, set_prototype;
          now destruct (assoc proto_key props)).
    destruct (assign_plain_keys props l2 N2 o2) as [P3 Q3].
    fold f in P3, Q3. split.
    + intros k. rewrite Q3, P2, Q1, <- M.
      rewrite existsb_app. cbn [existsb].
      destruct (String.eqb k proto_key) eqn:K.
      * apply String.eqb_eq in K. subst k.
        now rewrite (mem_absent _ _ N1), (mem_absent _ _ N2).
      * cbn [orb].
        destruct (existsb (String.eqb k) l2);
          [now rewrite orb_true_r|].
        rewrite orb_false_r.
        now destruct (existsb (String.eqb k) l1).
    + rewrite P3. unfold o2, set_prototype.
      destruct (assoc proto_key props); cbn [object_prototype];
        first [exact P1 | reflexivity].
  - destruct (assign_plain_keys props ks N target) as [P Q]. split.
    + intros k. rewrite Q, M.
      destruct (String.eqb k proto_key) eqn:K; [|reflexivity].
      apply String.eqb_eq in K. subst k.
      now rewrite <- M, (mem_absent _ _ N).
    + rewrite P.
      assert (A : assoc proto_key props = Undefined).
      { apply assoc_absent. rewrite <- M. now apply mem_absent. }
      now rewrite A.
Qed.

Lemma merged_settings_outcome (data : value) :
  (forall k,
     own_property (merged_settings data) k =
     if String.eqb k proto_key then None
     else if has_key k (own_props data)
          then Some (assoc k (own_props data))
          else if has_key k (settings_object DEFAULT_SETTINGS)
               then Some (assoc k (settings_object DEFAULT_SETTINGS))
               else None) /\
  object_prototype (merged_settings data) = stored_prototype data.
Proof.
  unfold merged_settings.
  destruct (object_assign_outcome empty_object
              (Object (settings_object DEFAULT_SETTINGS))
              eq_refl eq_refl) as [Q1 P1].
  cbn [own_props] in Q1, P1.
  change (assoc proto_key (settings_object DEFAULT_SETTINGS))
    with Undefined in P1.
  cbn [empty_object object_prototype own_property] in Q1, P1.
  set (t := object_assign empty_object
              (Object (settings_object DEFAULT_SETTINGS))) in *.
  destruct (object_assign_outcome t data) as [Q2 P2].
  - now rewrite Q1, String.eqb_refl.
  - now rewrite P1.
  - split.
    + intros k. rewrite Q2, Q1.
      now destruct (String.eqb k proto_key).
    + rewrite P2, P1. reflexivity.
Qed.

(** X20.  Loading merges the stored data over the defaults.  In the merged
    settings object every property of the stored data other than
    [__proto__] is an own property with the stored value, whatever it is
    and whether the plugin knows it or not; every other default is an own
    property with its default value; there are no further own
    properties.  A stored [__proto__] never becomes an own property: it
    replaces the prototype of the merged object when it is an object, an
    array or [null], and is dropped otherwise. *)
Theorem merged_settings_lookup (data : value) :
  (forall k,
     own_property (merged_settings data) k =
     if String.eqb k "__proto__" then None
     else if has_key k (own_props data)
          then Some (assoc k (own_props data))
          else if has_key k (settings_object DEFAULT_SETTINGS)
               then Some (assoc k (settings_object DEFAULT_SETTINGS))
               else None) /\
  object_prototype (merged_settings data) =
  match assoc "__proto__" (own_props data) with
  | Null => Replaced Null
  | Object ps => Replaced (Object ps)
  | Array l => Replaced (Array l)
  | _ => ObjectPrototype
  end.
Proof. exact (merged_settings_outcome data). Qed.

(** On a data file that stores a prototype: its provider and its unknown
    properties are own properties, the prototype is not, and a default
    that the prototype also holds keeps its default value. *)
Example merged_odd_data :
  own_property (merged_settings odd_data) "provider" = Some (Str "openai") /\
  own_property (merged_settings odd_data) "mine" = Some (Bool true) /\
  own_property (merged_settings odd_data) "7" = Some Null /\
  own_property (merged_settings odd_data) "__proto__" = None /\
  own_property (merged_settings odd_data) "geminiApiKey"
  = Some (Str EmptyString) /\
  object_prototype (merged_settings odd_data)
  = Replaced (Object [("geminiApiKey", Str "g")]) /\
  own_keys (own_props odd_data) = ["7"; "provider"; "__proto__"; "mine"].
Proof. repeat split. Qed.

(** The nine fields are own properties of the merged object, whatever
    the data. *)
Lemma merged_settings_fields (data : value) (k : string) :
  has_key k (settings_object DEFAULT_SETTINGS) = true ->
  exists v, own_property (merged_settings data) k = Some v.
Proof.
  intros H. rewrite (proj1 (merged_settings_outcome data) k), H.
  destruct (String.eqb k proto_key) eqn:K.
  - apply String.eqb_eq in K. subst k. discriminate.
  - destruct (has_key k (own_props data)); eexists; reflexivity.
Qed.

Lemma settings_round_trip (s : AITitlePluginSettings) :
  settings_of_object (merged_settings (Object (settings_object s))) = Some s.
Proof. destruct s. reflexivity. Qed.

(** X21.  What is saved is what is loaded: after [saveSettings],
    [loadSettings] yields the plugin as it is, for all settings. *)
Theorem load_after_save (p : Plugin) :
  loadSettings (saveSettings p) = Some (saveSettings p).
Proof.
  unfold loadSettings. cbn [saveSettings plugin_data].
  now rewrite settings_round_trip.
Qed.

(** X22.  Data stored by the revision in main.ts, which has no prompt
    template, loads in the current revision with every stored value and
    the default prompt template. *)
Theorem load_main_ts_data (s : AITitlePluginSettings) :
  settings_of_object (merged_settings (Object (main_ts_settings_object s)))
  = Some (set_customPrompt (customPrompt DEFAULT_SETTINGS) s).
Proof. destruct s. reflexivity. Qed.

(** A plugin just installed has no data file; loading gives the
    default settings, which hold no key, so that the command shows the
    notice for the Anthropic key and contacts no provider, whatever the
    document. *)
Example fresh_install_contacts_no_provider app (w : World) :
  exists p,
    loadSettings fresh_plugin = Some p /\
    plugin_settings p = DEFAULT_SETTINGS /\
    generateTitle app (plugin_settings p) w =
    (inr tt,
     log (ENotice "Please set your Anthropic API key in the settings") w).
Proof.
  exists fresh_plugin. repeat split.
Qed.

(** ** The settings tab *)

Lemma saveSettings_synced (p : Plugin) : synced (saveSettings p).
Proof. reflexivity. Qed.

(** X23.  Every change made in the settings tab is stored at once: if the
    data file held the settings before an action of the user, it holds
    them after it, and loading it gives the plugin as it is. *)
Theorem handle_keeps_data_in_step (a : action) (p : Plugin) :
  synced p ->
  synced (handle a p) /\ loadSettings (handle a p) = Some (handle a p).
Proof.
  intros H.
  assert (G : forall q, synced q -> loadSettings q = Some q).
  { intros q Hq. unfold loadSettings. rewrite Hq, settings_round_trip.
    rewrite <- Hq. now destruct q. }
  assert (S : synced (handle a p)).
  { destruct a; cbn [handle]; try apply saveSettings_synced;
      try (unfold on_provider_change, on_prompt_reset, display, synced;
           reflexivity).
    unfold on_max_title_length_change.
    destruct (parseInt v) as [n|]; [|exact H].
    destruct ((n <? 10)%Z || (n >? 500)%Z); [exact H|].
    apply saveSettings_synced. }
  split; [exact S | exact (G _ S)].
Qed.

Lemma handle_keeps_data_in_step_witness :
  let p := handle (TypeOpenAIKey " sk-1 ") (saveSettings fresh_plugin) in
  synced p /\ loadSettings p = Some p.
Proof.
  cbv zeta.
  apply (handle_keeps_data_in_step (TypeOpenAIKey " sk-1 ")
           (saveSettings fresh_plugin)).
  reflexivity.
Defined.

(** X24.  The maximal title length stays between 10 and 500: no action in
    the settings tab takes it out of this range, whatever is typed.  What
    is typed as the length is either refused, with one notice and no
    change to the settings or to the data file, or it parses to a number
    between 10 and 500, which is stored without a notice. *)
Theorem handle_keeps_length_in_range (a : action) (p : Plugin) :
  in_range (plugin_settings p) = true ->
  in_range (plugin_settings (handle a p)) = true /\
  (forall v, a = TypeMaxTitleLength v ->
     (plugin_settings (handle a p) = plugin_settings p /\
      plugin_data (handle a p) = plugin_data p /\
      exists m, plugin_notices (handle a p) = plugin_notices p ++ [m])%list
     \/
     (exists n, parseInt v = Some n /\ (10 <= n <= 500)%Z /\
        plugin_settings (handle a p)
          = set_maxTitleLength n (plugin_settings p) /\
        plugin_notices (handle a p) = plugin_notices p /\
        synced (handle a p))).
Proof.
  intros H. split.
  - destruct a; cbn [handle]; try exact H.
    + unfold on_api_key_change.
      destruct (negb (trim v =? v)%string); exact H.
    + unfold on_api_key_change.
      destruct (negb (trim v =? v)%string); exact H.
    + unfold on_api_key_change.
      destruct (negb (trim v =? v)%string); exact H.
    + unfold on_max_title_length_change.
      destruct (parseInt v) as [n|]; [|exact H].
      destruct ((n <? 10)%Z || (n >? 500)%Z) eqn:E; [exact H|].
      apply orb_false_iff in E. destruct E as [E1 E2].
      unfold in_range. cbn. apply andb_true_iff. split; lia.
  - intros v ->. cbn [handle]. unfold on_max_title_length_change.
    destruct (parseInt v) as [n|];
      [|left; split; [|split]; [reflexivity | reflexivity |];
        eexists; reflexivity].
    destruct ((n <? 10)%Z || (n >? 500)%Z) eqn:E;
      [left; split; [|split]; [reflexivity | reflexivity |];
       eexists; reflexivity|].
    apply orb_false_iff in E. destruct E as [E1 E2].
    right. exists n. repeat split; lia.
Qed.

Lemma handle_keeps_length_in_range_witness :
  in_range (plugin_settings (handle (TypeMaxTitleLength "5000")
                                    fresh_plugin)) = true /\
  in_range (plugin_settings (handle (TypeMaxTitleLength "80 chars")
                                    fresh_plugin)) = true.
Proof.
  split.
  - apply (handle_keeps_length_in_range (TypeMaxTitleLength "5000")
             fresh_plugin). reflexivity.
  - apply (handle_keeps_length_in_range (TypeMaxTitleLength "80 chars")
             fresh_plugin). reflexivity.
Defined.

(** X25.  A key typed in the settings tab is stored trimmed: the stored
    key is the input without white space at either end, the notice about
    trimming is shown exactly when that differs from the input, and the
    other settings are unchanged. *)
Theorem typed_key_is_trimmed (v : string) (p : Plugin) :
  let p' := handle (TypeAnthropicKey v) p in
  anthropicApiKey (plugin_settings p') = trim v /\
  trimmed (anthropicApiKey (plugin_settings p')) = true /\
  plugin_notices p' =
    (plugin_notices p ++
     if String.eqb (trim v) v then []
     else ["API key trimmed. Please check for extra spaces."])%list /\
  set_anthropicApiKey (anthropicApiKey (plugin_settings p))
    (plugin_settings p') = plugin_settings p.
Proof.
  cbv zeta. cbn [handle]. unfold on_api_key_change.
  destruct (trim v =? v)%string;
    cbn [negb saveSettings set_settings tab_notice plugin_settings
         plugin_notices set_anthropicApiKey anthropicApiKey];
    repeat split; try apply trim_trimmed; try (now rewrite app_nil_r);
    now destruct (plugin_settings p).
Qed.

(** X26.  A key of blanks counts as no key: after white space only is
    typed as the key of the active provider, the command shows the key
    notice and sends no request. *)
Theorem blank_key_is_no_key app (v : string) (p : Plugin) (w : World) :
  provider (plugin_settings p) = ANTHROPIC ->
  all_chars is_white_space v = true ->
  generateTitle app (plugin_settings (handle (TypeAnthropicKey v) p)) w =
  (inr tt,
   log (ENotice "Please set your Anthropic API key in the settings") w).
Proof.
  intros Hp Hv.
  assert (Hk : anthropicApiKey
                 (plugin_settings (handle (TypeAnthropicKey v) p)) = trim v).
  { cbn [handle]. unfold on_api_key_change.
    destruct (negb (trim v =? v)%string); reflexivity. }
  assert (Hprov : provider (plugin_settings (handle (TypeAnthropicKey v) p))
                  = ANTHROPIC).
  { cbn [handle]. unfold on_api_key_change.
    destruct (negb (trim v =? v)%string); exact Hp. }
  assert (Hkey : is_empty (getApiKey
                   (plugin_settings (handle (TypeAnthropicKey v) p)))
                 = true).
  { unfold getApiKey. rewrite Hprov. cbn [String.eqb].
    change (if (ANTHROPIC =? ANTHROPIC)%string
            then anthropicApiKey
                   (plugin_settings (handle (TypeAnthropicKey v) p))
            else _)
      with (anthropicApiKey
              (plugin_settings (handle (TypeAnthropicKey v) p))).
    now rewrite Hk, (trim_white_space v Hv). }
  rewrite (generateTitle_no_key app _ w Hkey).
  unfold key_notice, getProviderName. now rewrite Hprov.
Qed.

Lemma blank_key_is_no_key_witness :
  generateTitle (answering (anthropic_ok "Foo bar"))
    (plugin_settings (handle (TypeAnthropicKey "   ") fresh_plugin))
    (world0 "some text" (Some "notes/a.md")) =
  (inr tt,
   log (ENotice "Please set your Anthropic API key in the settings")
       (world0 "some text" (Some "notes/a.md"))).
Proof.
  apply (blank_key_is_no_key (answering (anthropic_ok "Foo bar")) "   "
           fresh_plugin (world0 "some text" (Some "notes/a.md")));
    reflexivity.
Defined.

(** The lengths the tab accepts, in order. *)
Lemma accepted_lengths_round_trip :
  forallb (fun k => match parseInt (number_toString (10 + Z.of_nat k)) with
                    | Some n => (n =? 10 + Z.of_nat k)%Z
                    | None => false
                    end) (seq 0 491) = true.
Proof. vm_compute. reflexivity. Qed.

(** X27.  The tab shows the maximal title length by its decimal rendering;
    for every length between 10 and 500 that rendering parses back to the
    length, so typing what is shown is accepted and stores the same
    value. *)
Theorem shown_length_is_accepted (n : Z) (p : Plugin) :
  (10 <= n <= 500)%Z ->
  parseInt (number_toString n) = Some n /\
  handle (TypeMaxTitleLength (number_toString n)) p =
  saveSettings (set_settings (set_maxTitleLength n (plugin_settings p)) p).
Proof.
  intros Hn.
  assert (Hp : parseInt (number_toString n) = Some n).
  { pose proof accepted_lengths_round_trip as H.
    rewrite forallb_forall in H.
    specialize (H (Z.to_nat (n - 10))).
    assert (Hin : In (Z.to_nat (n - 10)) (seq 0 491)).
    { apply in_seq. lia. }
    specialize (H Hin).
    replace (10 + Z.of_nat (Z.to_nat (n - 10)))%Z with n in H by lia.
    destruct (parseInt (number_toString n)) as [m|]; [|discriminate].
    apply Z.eqb_eq in H. now subst m. }
  split; [exact Hp|].
  cbn [handle]. unfold on_max_title_length_change. rewrite Hp.
  replace ((n <? 10)%Z || (n >? 500)%Z) with false; [reflexivity|].
  symmetry. apply orb_false_iff. split; lia.
Qed.

Lemma shown_length_is_accepted_witness :
  parseInt (number_toString 110) = Some 110%Z /\
  handle (TypeMaxTitleLength (number_toString 110)) fresh_plugin =
  saveSettings fresh_plugin.
Proof.
  apply (shown_length_is_accepted 110 fresh_plugin). lia.
Defined.

(** ** The command of the revision in main.ts *)

Lemma is_dir_prefix_slash (a : string) : is_dir_prefix (a ++ "/") = true.
Proof.
  induction a as [|c r IH]; [reflexivity|].
  change (String c r ++ "/") with (String c (r ++ "/")).
  cbn [is_dir_prefix]. destruct (r ++ "/") eqn:E; [|exact IH].
  destruct r; discriminate.
Qed.

(** X28.  The command of the revision in main.ts renames to the title as
    the provider returned it, without sanitizing: for a non-empty title
    free of dollar signs the rename is requested to the directory of the
    file followed by the title and the extension; when the title holds a
    slash, what precedes its last slash becomes part of the directory of
    the requested path. *)
Theorem main_ts_renames_to_raw_title app settings (w w2 : World)
    (dir name title : string) :
  is_empty (getApiKey settings) = false ->
  view_file w = Some (dir ++ name) ->
  is_dir_prefix dir = true ->
  is_file_name name = true ->
  MainTs.callProvider app settings (editor_value w) (started w)
    = (inr title, w2) ->
  is_empty title = false ->
  no_dollar title = true ->
  (exists tail,
     events (snd (MainTs.generateTitle app settings w)) =
     (events w2 ++
      ERenameFile (dir ++ name) (dir ++ title ++ ".md") :: tail)%list) /\
  (forall a b, title = a ++ "/" ++ b -> no_slash b = true ->
     exec_last_segment (dir ++ title ++ ".md")
       = Some (dir ++ a ++ "/", b ++ ".md")).
Proof.
  intros Hk Hf Hd Hn Hc Ht H1. split.
  - assert (E : MainTs.generateTitle app settings w =
                try_catch
                  (bind (MainTs.callProvider app settings (editor_value w))
                     (fun title =>
                        if negb (is_empty title) then
                          bind (renameFile app (dir ++ name)
                                  (replace_last_segment (dir ++ name)
                                     (title ++ ".md")))
                               (fun _ => Notice "Title updated successfully")
                        else ret tt))
                  (fun error =>
                     bind (console_error "Error generating title:" error)
                          (fun _ =>
                             Notice
                               "Failed to generate title. Check console for details."))
                  (started w)).
    { unfold MainTs.generateTitle. rewrite Hk.
      unfold bind at 1 2 3, getValue, getFile.
      cbn [log view_file]. rewrite Hf. reflexivity. }
    rewrite E. unfold try_catch, bind at 1. rewrite Hc, Ht. cbn [negb].
    rewrite (replace_last_segment_plain dir name (title ++ ".md") Hd Hn).
    2:{ unfold no_dollar in *. now rewrite all_chars_append, H1. }
    unfold bind, renameFile.
    destruct (host_renameFile app (dir ++ name) (dir ++ title ++ ".md"))
      as [e|].
    + eexists. cbn [snd console_error Notice log events].
      rewrite <- !app_assoc. reflexivity.
    + eexists. cbn [snd Notice log set_path events].
      rewrite <- !app_assoc. reflexivity.
  - intros a b -> Hb.
    replace (dir ++ (a ++ "/" ++ b) ++ ".md")
      with (((dir ++ a) ++ "/") ++ (b ++ ".md"))
      by (now rewrite !append_assoc).
    replace (dir ++ a ++ "/") with ((dir ++ a) ++ "/")
      by (now rewrite !append_assoc).
    apply exec_last_segment_split; [apply is_dir_prefix_slash|].
    unfold is_file_name. rewrite no_slash_append, Hb.
    destruct b; reflexivity.
Qed.

Lemma main_ts_renames_to_raw_title_witness :
  let app := answering (anthropic_ok "Plans/Q3: review") in
  let settings := with_anthropic_key "k" in
  let w := world0 "some text" (Some "notes/a.md") in
  (exists tail,
     events (snd (MainTs.generateTitle app settings w)) =
     (events (snd (MainTs.callProvider app settings "some text"
                     (started w)))
      ++ ERenameFile "notes/a.md" "notes/Plans/Q3: review.md" :: tail)%list)
  /\
  exec_last_segment "notes/Plans/Q3: review.md"
    = Some ("notes/Plans/", "Q3: review.md").
Proof.
  cbv zeta.
  destruct (main_ts_renames_to_raw_title
              (answering (anthropic_ok "Plans/Q3: review"))
              (with_anthropic_key "k")
              (world0 "some text" (Some "notes/a.md"))
              (snd (MainTs.callProvider
                      (answering (anthropic_ok "Plans/Q3: review"))
                      (with_anthropic_key "k") "some text"
                      (started (world0 "some text" (Some "notes/a.md")))))
              "notes/" "a.md" "Plans/Q3: review")
    as [H1 H2]; try reflexivity.
  split; [exact H1|].
  apply (H2 "Plans" "Q3: review"); reflexivity.
Defined.

Lemma generateTitle_trace_witness :
  let app := answering (anthropic_ok "Foo bar") in
  let settings := with_anthropic_key "k" in
  let w := world0 "some text" (Some "notes/a.md") in
  generateTitle app settings w =
  (inr tt,
   {| editor_value := "some text";
      view_file := Some "notes/Foo bar.md";
      events := [EGetValue; ENotice "Generating title...";
                 ERequestUrl (anthropic_request settings "some text");
                 ERenameFile "notes/a.md" "notes/Foo bar.md";
                 ENotice "Title updated successfully"] |}).
Proof.
  cbv zeta.
  rewrite (generateTitle_trace (answering (anthropic_ok "Foo bar"))
             (with_anthropic_key "k")
             (world0 "some text" (Some "notes/a.md")) "notes/a.md");
    reflexivity.
Defined.

Lemma sanitizeFileName_fixed_iff_clean_witness :
  clean_name "Meeting notes v1.2" = true /\
  sanitizeFileName "Meeting notes v1.2" = "Meeting notes v1.2".
Proof.
  split; [reflexivity|].
  apply (proj2 (sanitizeFileName_fixed_iff_clean "Meeting notes v1.2")).
  reflexivity.
Defined.
